(** * rifle and the tag store of ranger: a shallow embedding

    The development follows [ranger/ext/rifle.py] (the file opener) and
    [ranger/container/tags.py] (the tag store).  A Python [str] is a
    [string]; its methods are those of Python 3 on ASCII text, and the
    characters from 128 on count as caseless and as neither white space
    nor digits; a statement whose truth depends on that is made for ASCII
    text.  Tuples and lists of strings are [list string]; the
    [Rifle] instance is a record threaded through a state-and-exception
    monad; what the methods ask of the outside ([re], the search path,
    the [file] program, the file system) is a record of its own; Python's
    [set] of tags is a [gset string]. *)

From Stdlib Require Import String Ascii ZArith List Bool Lia DecimalString.
From stdpp Require Import base gmap strings list.

Open Scope string_scope.

(** ** Python [str] methods used by the sources *)

Module Str.

Definition is_lower (c : ascii) : bool :=
  let n := nat_of_ascii c in (97 <=? n)%nat && (n <=? 122)%nat.

Definition is_upper (c : ascii) : bool :=
  let n := nat_of_ascii c in (65 <=? n)%nat && (n <=? 90)%nat.

(** [c.upper()] and [c.lower()] on one character: only the letters
    [a-z] and [A-Z] are cased. *)
Definition upper (c : ascii) : ascii :=
  if is_lower c then ascii_of_nat (nat_of_ascii c - 32) else c.

Definition lower (c : ascii) : ascii :=
  if is_upper c then ascii_of_nat (nat_of_ascii c + 32) else c.

(** [c in s] for a one-character [c]. *)
Fixpoint mem (c : ascii) (s : string) : bool :=
  match s with
  | EmptyString => false
  | String d rest => Ascii.eqb c d || mem c rest
  end.

(** [''.join(f for f in s if p(f))] *)
Fixpoint filter (p : ascii -> bool) (s : string) : string :=
  match s with
  | EmptyString => EmptyString
  | String c rest => if p c then String c (filter p rest) else filter p rest
  end.

Fixpoint all (p : ascii -> bool) (s : string) : bool :=
  match s with
  | EmptyString => true
  | String c rest => p c && all p rest
  end.

Definition to_list (s : string) : list ascii := list_ascii_of_string s.

(** [s.startswith(p)] *)
Definition startswith (p s : string) : bool := String.prefix p s.

(** White space in the sense of [str.isspace]: tab, line feed, vertical
    tab, form feed, carriage return, the four separators 0x1c-0x1f and
    the space. *)
Definition is_space (c : ascii) : bool :=
  let n := nat_of_ascii c in
  ((9 <=? n)%nat && (n <=? 13)%nat) || ((28 <=? n)%nat && (n <=? 32)%nat).

Fixpoint lstrip (s : string) : string :=
  match s with
  | EmptyString => EmptyString
  | String c rest => if is_space c then lstrip rest else s
  end.

Fixpoint rstrip (s : string) : string :=
  match s with
  | EmptyString => EmptyString
  | String c rest =>
      match rstrip rest with
      | EmptyString => if is_space c then EmptyString else String c EmptyString
      | r => String c r
      end
  end.

(** [s.strip()] *)
Definition strip (s : string) : string := rstrip (lstrip s).

(** [s.split(sep, 1)] for a one-character [sep] that occurs in [s]:
    the text before and after its first occurrence; [None] when [sep]
    does not occur (Python then gives the one-element list [[s]]). *)
Fixpoint split_once (sep : ascii) (s : string) : option (string * string) :=
  match s with
  | EmptyString => None
  | String c rest =>
      if Ascii.eqb c sep then Some (EmptyString, rest)
      else match split_once sep rest with
           | Some (a, b) => Some (String c a, b)
           | None => None
           end
  end.

(** [s.split(sep)] for a one-character [sep]. *)
Fixpoint split (sep : ascii) (s : string) : list string :=
  match s with
  | EmptyString => [EmptyString]
  | String c rest =>
      if Ascii.eqb c sep then EmptyString :: split sep rest
      else match split sep rest with
           | w :: ws => String c w :: ws
           | [] => [String c EmptyString]
           end
  end.

(** The longest prefix without white space, and what follows it. *)
Fixpoint break_space (s : string) : string * string :=
  match s with
  | EmptyString => (EmptyString, EmptyString)
  | String c rest =>
      if is_space c then (EmptyString, s)
      else let (w, r) := break_space rest in (String c w, r)
  end.

(** [s.split(None, 1)]: the first word and, when something other than
    white space follows it, the remainder from its first non-space
    character to the end of [s]. *)
Definition split_ws1 (s : string) : list string :=
  match lstrip s with
  | EmptyString => []
  | s1 =>
      let (w, r) := break_space s1 in
      match lstrip r with
      | EmptyString => [w]
      | r1 => [w; r1]
      end
  end.

(** The lines of a text: each ends with its line feed, except possibly
    the last. *)
Fixpoint lines_go (cur : string -> string) (s : string) : list string :=
  match s with
  | EmptyString =>
      match cur EmptyString with
      | EmptyString => []
      | l => [l]
      end
  | String c rest =>
      if Ascii.eqb c "010"
      then cur (String c EmptyString) :: lines_go (fun x => x) rest
      else lines_go (fun x => cur (String c x)) rest
  end.

Definition lines (s : string) : list string := lines_go (fun x => x) s.

(** What reading a text file does to line ends: a carriage return,
    with or without a line feed after it, is read as a line feed. *)
Fixpoint translate_newlines (s : string) : string :=
  match s with
  | EmptyString => EmptyString
  | String c rest =>
      if Ascii.eqb c "013" then
        match rest with
        | String "010" rest' => String "010" (translate_newlines rest')
        | _ => String "010" (translate_newlines rest)
        end
      else String c (translate_newlines rest)
  end.

(** The lines yielded by [for line in f] for a file opened with
    [open(path, 'r')]. *)
Definition readlines (content : string) : list string :=
  lines (translate_newlines content).

(** The text after the last [sep] in [s]; all of [s] when there is
    none.  This is both [s.rsplit(sep, 1)[-1]] and, for [sep = '/'],
    [os.path.basename(s)]. *)
Fixpoint after_last (sep : ascii) (s : string) : string :=
  match s with
  | EmptyString => EmptyString
  | String c rest =>
      if mem sep rest then after_last sep rest
      else if Ascii.eqb c sep then rest else s
  end.

(** [s.replace(c, by)] for a one-character [c]. *)
Fixpoint replace (c : ascii) (by_ : string) (s : string) : string :=
  match s with
  | EmptyString => EmptyString
  | String d rest =>
      if Ascii.eqb d c then by_ ++ replace c by_ rest
      else String d (replace c by_ rest)
  end.

(** [sep.join(l)] *)
Fixpoint join (sep : string) (l : list string) : string :=
  match l with
  | [] => EmptyString
  | [x] => x
  | x :: rest => x ++ sep ++ join sep rest
  end.

(** [s.isdigit()]: non-empty and made of the digits [0-9]. *)
Definition is_digit (c : ascii) : bool :=
  let n := nat_of_ascii c in (48 <=? n)%nat && (n <=? 57)%nat.

Definition isdigit (s : string) : bool :=
  match s with
  | EmptyString => false
  | _ => all is_digit s
  end.

(** [int(s)] for a string of digits. *)
Fixpoint int_go (acc : Z) (s : string) : Z :=
  match s with
  | EmptyString => acc
  | String c rest => int_go (10 * acc + Z.of_nat (nat_of_ascii c - 48)) rest
  end.

Definition int (s : string) : Z := int_go 0 s.

(** ['%d' % n] for a natural number. *)
Definition of_nat (n : nat) : string :=
  NilEmpty.string_of_uint (Nat.to_uint n).

(** ['%d' % n] for an integer. *)
Definition of_Z (n : Z) : string :=
  NilEmpty.string_of_int (Z.to_int n).

End Str.

(** Characters that the sources write with an escape. *)
Definition dquote : string := String "034" EmptyString.
Definition squote : string := String "039" EmptyString.
Definition backslash : string := String "092" EmptyString.
Definition newline : string := String "010" EmptyString.

(** ** A fragment of Python's [re]

    The patterns of the fragment are built from literal characters, [.],
    the anchors [^] and [$], alternation [|], capturing groups [( )], the
    greedy quantifiers [*], [+] and [?], and a backslash before a
    punctuation character.  [compile] answers [None] for every other
    pattern: those with classes, counted or lazy repetition, group
    extensions or letter escapes, and those [re] rejects.  No flag is
    set: [^] matches at the start of the subject only, [$] at its end and
    before a line feed that ends it, and [.] matches any character but a
    line feed.  Only the existence of a match is modelled, which is what
    [bool(re.search(...))] observes. *)

Module Re.

Inductive regex : Type :=
| Eps
| Chr (c : ascii)
| Any
| Bol
| Eol
| Seq (r1 r2 : regex)
| Alt (r1 r2 : regex)
| Star (r : regex)
| Plus (r : regex)
| Opt (r : regex).

Definition is_anchor (r : regex) : bool :=
  match r with
  | Bol | Eol => true
  | _ => false
  end.

Definition is_alnum (c : ascii) : bool :=
  Str.is_lower c || Str.is_upper c || Str.is_digit c.

(** Characters with a meaning of their own in a pattern. *)
Definition is_special (c : ascii) : bool :=
  Str.mem c ".^$*+?{}[]\|()".

(** A quantifier after the atom [a], if one follows.  A quantifier on
    an anchor, and one directly after another, are not in the fragment. *)
Definition quantified (a : regex) (p : list ascii)
    : option (regex * list ascii) :=
  let no_second (r : regex) (p' : list ascii) :=
    match p' with
    | c :: _ => if Str.mem c "*+?{" then None else Some (r, p')
    | [] => Some (r, p')
    end in
  match p with
  | "*"%char :: p' => if is_anchor a then None else no_second (Star a) p'
  | "+"%char :: p' => if is_anchor a then None else no_second (Plus a) p'
  | "?"%char :: p' => if is_anchor a then None else no_second (Opt a) p'
  | _ => Some (a, p)
  end.

(** Recursive descent; every call spends one unit of [fuel]. *)
Fixpoint parse_alt (fuel : nat) (p : list ascii) {struct fuel}
    : option (regex * list ascii) :=
  match fuel with
  | O => None
  | S fuel =>
      match parse_seq fuel p with
      | Some (r1, "|"%char :: p') =>
          match parse_alt fuel p' with
          | Some (r2, rest) => Some (Alt r1 r2, rest)
          | None => None
          end
      | other => other
      end
  end
with parse_seq (fuel : nat) (p : list ascii) {struct fuel}
    : option (regex * list ascii) :=
  match fuel with
  | O => None
  | S fuel =>
      match p with
      | [] => Some (Eps, p)
      | "|"%char :: _ => Some (Eps, p)
      | ")"%char :: _ => Some (Eps, p)
      | _ =>
          match parse_atom fuel p with
          | Some (a, p1) =>
              match quantified a p1 with
              | Some (a', p2) =>
                  match parse_seq fuel p2 with
                  | Some (r, rest) => Some (Seq a' r, rest)
                  | None => None
                  end
              | None => None
              end
          | None => None
          end
      end
  end
with parse_atom (fuel : nat) (p : list ascii) {struct fuel}
    : option (regex * list ascii) :=
  match fuel with
  | O => None
  | S fuel =>
      match p with
      | [] => None
      | "("%char :: "?"%char :: _ => None
      | "("%char :: p' =>
          match parse_alt fuel p' with
          | Some (r, ")"%char :: rest) => Some (r, rest)
          | _ => None
          end
      | "."%char :: p' => Some (Any, p')
      | "^"%char :: p' => Some (Bol, p')
      | "$"%char :: p' => Some (Eol, p')
      | "\"%char :: c :: p' =>
          if is_alnum c || (128 <=? nat_of_ascii c)%nat then None
          else Some (Chr c, p')
      | c :: p' => if is_special c then None else Some (Chr c, p')
      end
  end.

(** [re.compile(pattern)], within the fragment. *)
Definition compile (pattern : string) : option regex :=
  let p := Str.to_list pattern in
  match parse_alt (3 * length p + 3) p with
  | Some (r, []) => Some r
  | _ => None
  end.

(** The positions reachable from those of [acc] by at most [n] further
    rounds of [step]. *)
Fixpoint closure (step : nat -> list nat) (n : nat) (acc : list nat)
    : list nat :=
  match n with
  | O => acc
  | S n => closure step n (list_union acc (flat_map step acc))
  end.

(** [ends r s i]: the positions [j] such that [r] matches the part of
    the subject [s] from position [i] up to position [j]. *)
Fixpoint ends (r : regex) (s : list ascii) (i : nat) : list nat :=
  match r with
  | Eps => [i]
  | Chr c =>
      match s !! i with
      | Some d => if Ascii.eqb d c then [S i] else []
      | None => []
      end
  | Any =>
      match s !! i with
      | Some d => if Ascii.eqb d "010" then [] else [S i]
      | None => []
      end
  | Bol => if (i =? 0)%nat then [i] else []
  | Eol =>
      if (i =? length s)%nat then [i]
      else if (S i =? length s)%nat && bool_decide (s !! i = Some "010"%char)
           then [i] else []
  | Seq r1 r2 => flat_map (ends r2 s) (ends r1 s i)
  | Alt r1 r2 => ends r1 s i ++ ends r2 s i
  | Star r => closure (ends r s) (S (length s)) [i]
  | Plus r => closure (ends r s) (S (length s)) (ends r s i)
  | Opt r => i :: ends r s i
  end.

(** Is there a match starting anywhere in the subject? *)
Definition search_re (r : regex) (s : list ascii) : bool :=
  existsb (fun i => negb (bool_decide (ends r s i = [])))
          (seq 0 (S (length s))).

(** Does the pattern match the subject from its first character to its
    last? *)
Definition fullmatch_re (r : regex) (s : list ascii) : bool :=
  bool_decide (length s ∈ ends r s 0).

(** [bool(re.search(pattern, subject))] *)
Definition search (pattern subject : string) : option bool :=
  match compile pattern with
  | Some r => Some (search_re r (Str.to_list subject))
  | None => None
  end.

(** [bool(re.fullmatch(pattern, subject))] *)
Definition fullmatch (pattern subject : string) : option bool :=
  match compile pattern with
  | Some r => Some (fullmatch_re r (Str.to_list subject))
  | None => None
  end.

End Re.

(** ** Flag algebra: [squash_flags] *)

(** [''.join(f.upper() + f.lower() for f in flags if f == f.upper())] *)
Fixpoint exclude_of (flags : string) : string :=
  match flags with
  | EmptyString => EmptyString
  | String f rest =>
      if Ascii.eqb f (Str.upper f)
      then String (Str.upper f) (String (Str.lower f) (exclude_of rest))
      else exclude_of rest
  end.

Definition squash_flags (flags : string) : string :=
  let exclude := exclude_of flags in
  Str.filter (fun f => negb (Str.mem f exclude)) flags.

(** ** Exceptions and the state monad of the [Rifle] methods *)

Inductive exn : Type :=
| Exception (msg : string)
| re_error
| KeyError (key : string)
| IndexError
| AttributeError (name : string)
| IOError (path : string)
| OSError (what : string).

Inductive result (A : Type) : Type :=
| Ok (a : A)
| Raise (e : exn).

Arguments Ok {A} a.
Arguments Raise {A} e.

(** Python values a condition evaluates to: [_eval_condition2] returns
    [True], [False] or, by falling off its end, [None]. *)
Inductive pyval : Type :=
| PyNone
| PyBool (b : bool).

Definition truthy (v : pyval) : bool :=
  match v with
  | PyNone => false
  | PyBool b => b
  end.

(** [not v] *)
Definition py_not (v : pyval) : pyval := PyBool (negb (truthy v)).

(** A rule as [reload_config] stores it: [(command, tests)], every test a
    tuple of strings. *)
Definition condition : Type := list string.
Definition rule : Type := string * list condition.

(** The attributes of the [Rifle] instance, followed by the state of the
    process its methods touch: [os.environ], the lines [hook_logger] wrote
    to standard error and the commands handed to [Popen].  [rules] is
    [None] until [reload_config] has run; [_skip] and [_mimetype] hold
    [None] for Python's [None]. *)
Record State : Type := mkState {
  config_file : string;
  rules : option (list rule);
  _app_flags : string;
  _app_label : option string;
  _skip : option Z;
  _mimetype : option string;
  environ : gmap string string;
  stderr : list string;
  spawned : list string
}.

Definition set_rules (v : option (list rule)) (s : State) : State :=
  mkState (config_file s) v (_app_flags s) (_app_label s) (_skip s)
          (_mimetype s) (environ s) (stderr s) (spawned s).
Definition set_app_flags (v : string) (s : State) : State :=
  mkState (config_file s) (rules s) v (_app_label s) (_skip s)
          (_mimetype s) (environ s) (stderr s) (spawned s).
Definition set_app_label (v : option string) (s : State) : State :=
  mkState (config_file s) (rules s) (_app_flags s) v (_skip s)
          (_mimetype s) (environ s) (stderr s) (spawned s).
Definition set_skip (v : option Z) (s : State) : State :=
  mkState (config_file s) (rules s) (_app_flags s) (_app_label s) v
          (_mimetype s) (environ s) (stderr s) (spawned s).
Definition set_mimetype (v : option string) (s : State) : State :=
  mkState (config_file s) (rules s) (_app_flags s) (_app_label s) (_skip s)
          v (environ s) (stderr s) (spawned s).
Definition set_environ (v : gmap string string) (s : State) : State :=
  mkState (config_file s) (rules s) (_app_flags s) (_app_label s) (_skip s)
          (_mimetype s) v (stderr s) (spawned s).
Definition set_stderr (v : list string) (s : State) : State :=
  mkState (config_file s) (rules s) (_app_flags s) (_app_label s) (_skip s)
          (_mimetype s) (environ s) v (spawned s).
Definition set_spawned (v : list string) (s : State) : State :=
  mkState (config_file s) (rules s) (_app_flags s) (_app_label s) (_skip s)
          (_mimetype s) (environ s) (stderr s) v.

(** [Rifle(config_file)] in a process with the given environment. *)
Definition __init__ (config_file : string) (env : gmap string string) : State :=
  mkState config_file None "" None None None env [] [].

(** What the methods consult outside the instance and the process
    environment: the [re] module, the executables on the search path,
    whether the three standard streams are terminals, the working
    directory (through [os.path.abspath]), the [file] program and the
    readable files. *)
Record World : Type := mkWorld {
  re_search : string -> string -> result bool;
  get_executables : gset string;
  _is_terminal : bool;
  abspath : string -> string;
  spawn_file : string -> result string;
  open_read : string -> option string
}.

Definition M (A : Type) : Type := State -> result (A * State).

Definition ret {A} (a : A) : M A := fun s => Ok (a, s).
Definition raise {A} (e : exn) : M A := fun _ => Raise e.
Definition bind {A B} (c : M A) (k : A -> M B) : M B :=
  fun s => match c s with
           | Ok (a, s') => k a s'
           | Raise e => Raise e
           end.
Definition gets {A} (f : State -> A) : M A := fun s => Ok (f s, s).
Definition modify (f : State -> State) : M unit := fun s => Ok (tt, f s).
Definition lift {A} (r : result A) : M A :=
  fun s => match r with Ok a => Ok (a, s) | Raise e => Raise e end.

Notation "'let*' x ':=' c 'in' k" := (bind c (fun x => k))
  (at level 10, x pattern, c at level 100, k at level 200).
Notation "c '>>' k" := (bind c (fun _ => k))
  (at level 100, k at level 200, right associativity).

(** [self.hook_logger(string)]: one line on standard error. *)
Definition hook_logger (line : string) : M unit :=
  modify (fun s => set_stderr (stderr s ++ [line])%list s).

(** ** Config loader: [Rifle.reload_config] *)

Definition delimiter1 : ascii := "=".
Definition delimiter2 : ascii := ",".

(** The body of the [try] block for one stripped line: the rule it
    appends, or the message of the exception it raises. *)
Definition parse_line (line : string) : string + rule :=
  match Str.split_once delimiter1 line with
  | None => inl "Line without delimiter"
  | Some (tests, command) =>
      let tests := Str.split delimiter2 tests in
      let tests := map (fun f => Str.split_ws1 (Str.strip f)) tests in
      let command := Str.strip command in
      inr (command, tests)
  end.

(** ["Syntax error in %s line %d (%s)" % (config_file, lineno, str(e))] *)
Definition syntax_error (config_file : string) (lineno : nat) (e : string) : string :=
  "Syntax error in " ++ config_file ++ " line " ++ Str.of_nat lineno
    ++ " (" ++ e ++ ")".

(** The [for line in f] loop.  A comment or an empty line is left by
    [continue], before [lineno += 1] is reached. *)
Fixpoint reload_loop (config_file : string) (lines : list string)
    (lineno : nat) (acc : list rule) : M unit :=
  match lines with
  | [] => modify (set_rules (Some acc))
  | line :: rest =>
      if Str.startswith "#" line || String.eqb line newline
      then reload_loop config_file rest lineno acc
      else
        let line := Str.strip line in
        match parse_line line with
        | inr r => reload_loop config_file rest (lineno + 1) (acc ++ [r])%list
        | inl e =>
            hook_logger (syntax_error config_file lineno e) >>
            reload_loop config_file rest (lineno + 1) acc
        end
  end.

(** [reload_config(config_file=None)] *)
Definition reload_config (w : World) (config_file_arg : option string) : M unit :=
  let* config_file :=
    match config_file_arg with
    | None => gets config_file
    | Some f => ret f
    end in
  match open_read w config_file with
  | None => raise (IOError config_file)
  | Some content =>
      modify (set_rules (Some [])) >>
      reload_loop config_file (Str.readlines content) 1 []
  end.

(** *** The loader, line by line

    The three kinds of line [reload_config] distinguishes, and what the
    loop accumulates, written as functions of the list of lines. *)

(** Left by [continue]: a line starting with [#], or an empty line. *)
Definition skipped (line : string) : bool :=
  Str.startswith "#" line || String.eqb line newline.

(** Lacking the delimiter [=], and not skipped. *)
Definition malformed (line : string) : bool :=
  negb (skipped line) && negb (Str.mem delimiter1 (Str.strip line)).

(** Holding the delimiter [=], and not skipped. *)
Definition well_formed (line : string) : bool :=
  negb (skipped line) && Str.mem delimiter1 (Str.strip line).

(** The rules of the lines that hold a delimiter, in the order of the lines. *)
Fixpoint rules_of (lines : list string) : list rule :=
  match lines with
  | [] => []
  | line :: rest =>
      if skipped line then rules_of rest
      else match parse_line (Str.strip line) with
           | inr r => r :: rules_of rest
           | inl _ => rules_of rest
           end
  end.

(** The messages logged, [lineno] being the counter's value at the first
    line. *)
Fixpoint diagnostics_of (config_file : string) (lineno : nat)
    (lines : list string) : list string :=
  match lines with
  | [] => []
  | line :: rest =>
      if skipped line then diagnostics_of config_file lineno rest
      else match parse_line (Str.strip line) with
           | inr _ => diagnostics_of config_file (lineno + 1) rest
           | inl e =>
               syntax_error config_file lineno e
                 :: diagnostics_of config_file (lineno + 1) rest
           end
  end.

(** ** Condition evaluator *)

(** [self._get_mimetype(fname)]: the cached type when it is a non-empty
    string, else the output of the [file] program, which is cached. *)
Definition _get_mimetype (w : World) (fname : string) : M string :=
  let* cached := gets _mimetype in
  match cached with
  | Some (String c m) => ret (String c m)
  | _ =>
      let* mimetype := lift (spawn_file w fname) in
      modify (set_mimetype (Some mimetype)) >>
      ret mimetype
  end.

Definition basename (p : string) : string := Str.after_last "/" p.

(** Truth value of the optional string [label]. *)
Definition label_given (label : option string) : bool :=
  match label with
  | Some (String _ _) => true
  | _ => false
  end.

(** [_eval_condition2(rule, files, label)] *)
Definition _eval_condition2 (w : World) (rule : condition)
    (files : list string) (label : option string) : M pyval :=
  match rule with
  | [] => raise IndexError
  | function :: rest =>
      let argument := match rest with a :: _ => a | [] => "" end in
      match files with
      | [] => ret (PyBool false)
      | file0 :: _ =>
          if String.eqb function "ext" then
            let extension := Str.after_last "." (basename file0) in
            let* b := lift (re_search w ("^" ++ argument ++ "$") extension) in
            ret (PyBool b)
          else if String.eqb function "name" then
            let* b := lift (re_search w argument (basename file0)) in
            ret (PyBool b)
          else if String.eqb function "path" then
            let* b := lift (re_search w argument (abspath w file0)) in
            ret (PyBool b)
          else if String.eqb function "mime" then
            let* mimetype := _get_mimetype w file0 in
            let* b := lift (re_search w argument mimetype) in
            ret (PyBool b)
          else if String.eqb function "has" then
            ret (PyBool (bool_decide (argument ∈ get_executables w)))
          else if String.eqb function "terminal" then
            ret (PyBool (_is_terminal w))
          else if String.eqb function "number" then
            (if Str.isdigit argument
             then modify (set_skip (Some (Str.int argument)))
             else ret tt) >>
            ret (PyBool true)
          else if String.eqb function "label" then
            modify (set_app_label (Some argument)) >>
            if label_given label
            then ret (PyBool (bool_decide (Some argument = label)))
            else ret (PyBool true)
          else if String.eqb function "flag" then
            modify (set_app_flags argument) >>
            ret (PyBool true)
          else if String.eqb function "X" then
            let* env := gets environ in
            ret (PyBool (bool_decide (is_Some (env !! "DISPLAY"))))
          else if String.eqb function "else" then
            ret (PyBool true)
          else ret PyNone
      end
  end.

(** [condition[0][1:]] *)
Definition drop_first (s : string) : string :=
  match s with
  | EmptyString => EmptyString
  | String _ rest => rest
  end.

(** [_eval_condition(condition, files, label)] *)
Definition _eval_condition (w : World) (condition : condition)
    (files : list string) (label : option string) : M pyval :=
  match condition with
  | [] => ret (PyBool true)
  | c0 :: rest =>
      if Str.startswith "!" c0 then
        let new_condition := ([drop_first c0] ++ rest)%list in
        let* v := _eval_condition2 w new_condition files label in
        ret (py_not v)
      else _eval_condition2 w condition files label
  end.

(** The function names [_eval_condition2] compares [rule[0]] with. *)
Definition recognized_functions : list string :=
  ["ext"; "name"; "path"; "mime"; "has"; "terminal"; "number"; "label";
   "flag"; "X"; "else"].

Definition recognized (function : string) : bool :=
  bool_decide (function ∈ recognized_functions).

(** The negated form of a condition: its function name behind a [!]. *)
Definition negate (c : condition) : condition :=
  match c with
  | [] => []
  | function :: rest => ("!" ++ function) :: rest
  end.

(** ** Command builder *)

(** [_apply_flags(action, flags)] *)
Definition _apply_flags (w : World) (action flags : string) : M string :=
  let action := if Str.mem "r" flags then "sudo " ++ action else action in
  let* action :=
    if Str.mem "t" flags then
      let* env := gets environ in
      (match env !! "TERMCMD" with
       | Some _ => ret tt
       | None =>
           match env !! "TERM" with
           | None => raise (KeyError "TERM")
           | Some term =>
               let term :=
                 if Str.startswith "rxvt-unicode" term then "urxvt" else term in
               (if bool_decide (term ∈ get_executables w) then ret tt
                else hook_logger ("Can not determine terminal command.  "
                                    ++ "Please set $TERMCMD manually.")) >>
               modify (fun s => set_environ (<["TERMCMD" := term]> (environ s)) s)
           end
       end) >>
      ret ("$TERMCMD -e " ++ action)
    else ret action in
  let action :=
    if Str.mem "f" flags then
      if bool_decide ("setsid" ∈ get_executables w)
      then "setsid " ++ action ++ " > /dev/null 2> /dev/null &"
      else "nohup " ++ action ++ " > /dev/null 2> /dev/null &"
    else action in
  ret action.

(** [_build_command(files, action, flags)]; [flags] is [None] when the
    argument is not a [str]. *)
Definition _build_command (w : World) (files : list string) (action : string)
    (flags : option string) : M string :=
  (match flags with
   | Some fl => modify (fun s => set_app_flags (_app_flags s ++ fl) s)
   | None => ret tt
   end) >>
  modify (fun s => set_app_flags (squash_flags (_app_flags s)) s) >>
  let* flags := gets _app_flags in
  let _filenames :=
    Str.join (squote ++ " " ++ squote)
      (map (Str.replace "'" (squote ++ backslash ++ squote ++ squote))
           (List.filter (fun f => negb (Str.mem "000" f)) files)) in
  let command := "set -- '" ++ _filenames ++ "'" ++ newline in
  let* action := _apply_flags w action flags in
  ret (command ++ action).

(** ** Rule selector: the generator [list_commands] *)

(** What the generator yields: [(count, cmd, self._app_label, self._app_flags)]. *)
Definition match_ : Type := Z * string * option string * string.

Definition match_count (m : match_) : Z := m.1.1.1.
Definition match_cmd (m : match_) : string := m.1.1.2.
Definition match_label (m : match_) : option string := m.1.2.
Definition match_flags (m : match_) : string := m.2.

(** The inner [for test in tests] loop: [true] when it ends without
    [break], so that its [else] branch runs. *)
Fixpoint eval_tests (w : World) (tests : list condition) (files : list string)
    : M bool :=
  match tests with
  | [] => ret true
  | test :: rest =>
      let* v := _eval_condition w test files None in
      if truthy v then eval_tests w rest files else ret false
  end.

(** One turn of the outer loop, up to its [yield]: the tuple to yield
    when the rule applies. *)
Definition try_rule (w : World) (files : list string) (count : Z) (r : rule)
    : M (option match_) :=
  let '(cmd, tests) := r in
  modify (set_skip None) >>
  modify (set_app_flags "") >>
  modify (set_app_label None) >>
  let* ok := eval_tests w tests files in
  if ok then
    let* skip := gets _skip in
    let count := match skip with None => (count + 1)%Z | Some n => n end in
    let* lbl := gets _app_label in
    let* fl := gets _app_flags in
    ret (Some (count, cmd, lbl, fl))
  else ret None.

(** Entering the generator's body: [self._mimetype = mimetype],
    [count = -1], and the iteration over [self.rules] begins. *)
Definition list_commands_start (mimetype : option string) : M (Z * list rule) :=
  modify (set_mimetype mimetype) >>
  let* rs := gets rules in
  match rs with
  | None => raise (AttributeError "rules")
  | Some rs => ret ((-1)%Z, rs)
  end.

(** Resuming the generator with [count] and the rules not yet visited:
    the next tuple it yields, with the count and the rules it is
    suspended at, or [None] when it is exhausted. *)
Fixpoint list_commands_next (w : World) (files : list string) (count : Z)
    (rs : list rule) : M (option (match_ * (Z * list rule))) :=
  match rs with
  | [] => ret None
  | r :: rest =>
      let* y := try_rule w files count r in
      match y with
      | Some m => ret (Some (m, (match_count m, rest)))
      | None => list_commands_next w files count rest
      end
  end.

(** Running the generator to its end without touching the instance in
    between, as [for ... in rifle.list_commands(files)] does in [main]:
    the tuples yielded, each with the state of the instance at its
    [yield], and how the iteration ended. *)
Fixpoint list_commands_loop (w : World) (files : list string) (count : Z)
    (rs : list rule) (s : State) : list (match_ * State) * result State :=
  match rs with
  | [] => ([], Ok s)
  | r :: rest =>
      match try_rule w files count r s with
      | Raise e => ([], Raise e)
      | Ok (None, s') => list_commands_loop w files count rest s'
      | Ok (Some m, s') =>
          let (ms, out) := list_commands_loop w files (match_count m) rest s' in
          ((m, s') :: ms, out)
      end
  end.

Definition list_commands (w : World) (files : list string)
    (mimetype : option string) (s : State)
    : list (match_ * State) * result State :=
  match list_commands_start mimetype s with
  | Raise e => ([], Raise e)
  | Ok ((count, rs), s') => list_commands_loop w files count rs s'
  end.

(** ** Dispatch driver: [Rifle.execute] *)

Definition DEFAULT_PAGER : string := "less".
Definition DEFAULT_EDITOR : string := "nano".

(** The hooks of the base class leave the command as it is. *)
Definition hook_command_preprocessing (command : string) : string := command.
Definition hook_command_postprocessing (command : string) : string := command.

(** [label and label == lbl or not label and count == number] *)
Definition selected (label : option string) (number : Z)
    (count : Z) (lbl : option string) : bool :=
  if label_given label then bool_decide (label = lbl)
  else bool_decide (count = number).

(** The loop [for count, cmd, lbl, flags in self.list_commands(...)] of
    [execute], the generator being resumed at [count] and [rs].  The
    loop's targets rebind the local [flags], which is the parameter of
    [execute] until the first tuple arrives.  The result is the local
    [command] ([None] for Python's [None]) and [found_at_least_one].
    [execute_else] is the [else] branch of the [for], run when the
    generator is exhausted. *)
Definition execute_else (w : World) (files : list string)
    (label : option string) (flags : option string) (found : bool)
    : M (option string * bool) :=
  match label with
  | Some (String c l) =>
      if bool_decide (String c l ∈ get_executables w) then
        let cmd := String c l ++ " -- " ++ dquote ++ "$@" ++ dquote in
        let* command := _build_command w files cmd flags in
        ret (Some command, found)
      else ret (None, found)
  | _ => ret (None, found)
  end.

Fixpoint execute_loop (w : World) (files : list string) (number : Z)
    (label : option string) (flags : option string) (found : bool)
    (count : Z) (rs : list rule) : M (option string * bool) :=
  match rs with
  | [] => execute_else w files label flags found
  | r :: rest =>
      let* y := try_rule w files count r in
      match y with
      | None => execute_loop w files number label flags found count rest
      | Some (count, cmd, lbl, flags) =>
          if selected label number count lbl then
            let cmd := hook_command_preprocessing cmd in
            let* command := _build_command w files cmd (Some flags) in
            ret (Some command, found)
          else
            execute_loop w files number label (Some flags) true count rest
      end
  end.

(** [execute(files, number=0, label=None, flags=None, mimetype=None)] *)
Definition execute (w : World) (files : list string) (number : Z)
    (label : option string) (flags : option string)
    (mimetype : option string) : M unit :=
  let* gen := list_commands_start mimetype in
  let* res := execute_loop w files number label flags false gen.1 gen.2 in
  let found_at_least_one := res.2 in
  match res.1 with
  | None =>
      if found_at_least_one then
        if label_given label
        then hook_logger ("Label '" ++ default "" label ++ "' is undefined")
        else hook_logger ("Method number " ++ Str.of_Z number ++ " is undefined.")
      else hook_logger "No action found."
  | Some command =>
      modify (fun s =>
        match environ s !! "PAGER" with
        | Some _ => s
        | None => set_environ (<["PAGER" := DEFAULT_PAGER]> (environ s)) s
        end) >>
      modify (fun s =>
        match environ s !! "EDITOR" with
        | Some _ => s
        | None => set_environ (<["EDITOR" := DEFAULT_EDITOR]> (environ s)) s
        end) >>
      let command := hook_command_postprocessing command in
      modify (fun s => set_spawned (spawned s ++ [command])%list s)
  end.

(** ** The tag store: [ranger/container/tags.py] *)

Module Tags.

(** The order in which Python iterates over a [set] is not fixed by the
    language: any enumeration of the elements without repetition.  The
    methods that write the set take the order as an argument, so that
    every call may have its own. *)
Record SetOrder : Type := mkSetOrder {
  set_iter : gset string -> list string;
  set_iter_perm : forall X : gset string, set_iter X ≡ₚ elements X
}.

Definition elements_order : SetOrder :=
  mkSetOrder elements (fun X => reflexivity (elements X)).

(** The file system as one tag file sees it: whether the directory of
    the file exists, and the content of the file when the file exists. *)
Record Fs : Type := mkFs {
  dir_exists : bool;
  content : option string
}.

(** The instance: [_filename] is the path after [realpath], [abspath]
    and [expanduser]; [tags] is [None] as long as the attribute has not
    been assigned. *)
Record t : Type := mkTags {
  _filename : string;
  tags : option (gset string)
}.

(** [_parse(f)] on the content of the open file. *)
Definition _parse (content : string) : gset string :=
  foldl (fun result line => result ∪ {[Str.strip line]}) ∅
        (Str.readlines content).

(** [_compile(f)]: what is written to the file just truncated. *)
Definition _compile (o : SetOrder) (tags : gset string) : string :=
  foldr (fun line written => line ++ newline ++ written) ""
        (set_iter o tags).

(** [sync()]: an [OSError] from [open] is passed over. *)
Definition sync (fs : Fs) (self : t) : t :=
  match content fs with
  | None => self
  | Some c => mkTags (_filename self) (Some (_parse c))
  end.

(** [dump()]: [open(..., 'w')] truncates or creates the file when its
    directory exists; an [OSError] is passed over. *)
Definition dump (o : SetOrder) (fs : Fs) (self : t) : result Fs :=
  if dir_exists fs || bool_decide (is_Some (content fs)) then
    match tags self with
    | None => Raise (AttributeError "tags")
    | Some tags => Ok (mkFs (dir_exists fs) (Some (_compile o tags)))
    end
  else Ok fs.

(** [Tags(filename)] *)
Definition __init__ (filename : string) (fs : Fs) : Fs * t :=
  let fs :=
    if dir_exists fs && negb (bool_decide (is_Some (content fs)))
    then mkFs (dir_exists fs) (Some "")
    else fs in
  (fs, sync fs (mkTags filename None)).

(** [item in self] *)
Definition __contains__ (self : t) (item : string) : result bool :=
  match tags self with
  | None => Raise (AttributeError "tags")
  | Some tags => Ok (bool_decide (item ∈ tags))
  end.

(** The loops over [items]; every access to [self.tags] raises when
    the attribute is missing. *)
Fixpoint add_items (items : list string) (self : t) : result t :=
  match items with
  | [] => Ok self
  | item :: rest =>
      match tags self with
      | None => Raise (AttributeError "tags")
      | Some tags => add_items rest (mkTags (_filename self) (Some (tags ∪ {[item]})))
      end
  end.

Fixpoint remove_items (items : list string) (self : t) : result t :=
  match items with
  | [] => Ok self
  | item :: rest =>
      match tags self with
      | None => Raise (AttributeError "tags")
      | Some tags => remove_items rest (mkTags (_filename self) (Some (tags ∖ {[item]})))
      end
  end.

Fixpoint toggle_items (items : list string) (self : t) : result t :=
  match items with
  | [] => Ok self
  | item :: rest =>
      match tags self with
      | None => Raise (AttributeError "tags")
      | Some tags =>
          if bool_decide (item ∈ tags)
          then toggle_items rest (mkTags (_filename self) (Some (tags ∖ {[item]})))
          else toggle_items rest (mkTags (_filename self) (Some (tags ∪ {[item]})))
      end
  end.

Definition then_dump (o : SetOrder) (fs : Fs) (r : result t) : result (Fs * t) :=
  match r with
  | Raise e => Raise e
  | Ok self =>
      match dump o fs self with
      | Raise e => Raise e
      | Ok fs' => Ok (fs', self)
      end
  end.

(** The methods [add], [remove] and [toggle], called with the items
    as their arguments. *)
Definition add (o : SetOrder) (items : list string) (fs : Fs) (self : t)
    : result (Fs * t) :=
  then_dump o fs (add_items items (sync fs self)).

Definition remove (o : SetOrder) (items : list string) (fs : Fs) (self : t)
    : result (Fs * t) :=
  then_dump o fs (remove_items items (sync fs self)).

Definition toggle (o : SetOrder) (items : list string) (fs : Fs) (self : t)
    : result (Fs * t) :=
  then_dump o fs (toggle_items items (sync fs self)).

(** Tokens that a line of the file holds as they are: no white space
    at either end, no line feed and no carriage return inside. *)
Definition clean (token : string) : bool :=
  String.eqb (Str.strip token) token
    && negb (Str.mem "010" token) && negb (Str.mem "013" token).

(** What a fresh instance on the same file holds. *)
Definition stored (fs : Fs) : option (gset string) :=
  tags (__init__ "tags" fs).2.

(** An existing, empty tag file. *)
Definition empty_file : Fs := mkFs true (Some "").

End Tags.

(** ** A concrete world

    [re] is answered by the fragment above; a pattern outside the
    fragment is answered like one that [re] rejects.  The statements made
    in this world use patterns of the fragment only. *)

Definition re_search_fragment (pattern subject : string) : result bool :=
  match Re.search pattern subject with
  | Some b => Ok b
  | None => Raise re_error
  end.

(** No executable on the search path, no terminal, working directory [/],
    a [file] program that answers [text/plain], and one readable file:
    the configuration at [path] with the given [content]. *)
Definition world_with_config (path content : string) : World :=
  mkWorld re_search_fragment ∅ false
          (fun p => if Str.startswith "/" p then p else "/" ++ p)
          (fun _ => Ok "text/plain")
          (fun p => if String.eqb p path then Some content else None).

(** A freshly constructed instance whose configuration has been loaded. *)
Definition loaded (w : World) (config_file : string) : result (unit * State) :=
  reload_config w None (__init__ config_file ∅).

(** A world without configuration file and an instance in it, with an
    empty process environment. *)
Definition world0 : World := world_with_config "rifle.conf" "".
Definition state0 : State := __init__ "rifle.conf" ∅.

(** *** Configuration files used in the statements below *)

(** A comment, a line without delimiter, a rule. *)
Definition config_comment_first : string :=
  "# comment" ++ newline ++ "bogus" ++ newline ++ "ext jpg = feh" ++ newline.

(** A rule whose only condition has a function name that
    [_eval_condition2] does not know. *)
Definition config_unknown_function : string :=
  "frobnicate x = cmd" ++ newline.

(** The rule of the docstring of [execute]: flags [pw]. *)
Definition config_flags_pw : string := "flag pw = cmd" ++ newline.

(** Three rules: the first needs a display, the other two apply to
    every non-empty file list. *)
Definition config_three_rules : string :=
  "X, flag f = viewer" ++ newline ++ "else, label editor = editor" ++ newline
    ++ "else = pager" ++ newline.


(** The one rule of the configuration [ext jpg = feh -- "$@"]. *)
Definition config_feh : string :=
  "ext jpg = feh -- " ++ dquote ++ "$@" ++ dquote ++ newline.

(** ** What an evaluation may change, and what a rule's text fixes *)

(** The function name of a condition as [_eval_condition] hands it to
    [_eval_condition2], and the argument [_eval_condition2] reads. *)
Definition inner_function (c : condition) : string :=
  match c with
  | [] => ""
  | c0 :: _ => if Str.startswith "!" c0 then drop_first c0 else c0
  end.

Definition argument_of (c : condition) : string :=
  match c with
  | _ :: a :: _ => a
  | _ => ""
  end.


(** The flags, the label and the skip-target that the conditions of a
    rule assign when all of them are evaluated, read off the rule's
    text: the last assignment of each kind wins. *)
Definition flags_of (tests : list condition) : string :=
  foldl (fun acc c =>
           if String.eqb (inner_function c) "flag" then argument_of c else acc)
        "" tests.

Definition label_of (tests : list condition) : option string :=
  foldl (fun acc c =>
           if String.eqb (inner_function c) "label"
           then Some (argument_of c) else acc)
        None tests.

Definition skip_of (tests : list condition) : option Z :=
  foldl (fun acc c =>
           if String.eqb (inner_function c) "number"
              && Str.isdigit (argument_of c)
           then Some (Str.int (argument_of c)) else acc)
        None tests.

(** A rule with two flag conditions, a label and a skip-target, as the
    line [else, flag t, number 7, label pager, flag f = less] loads. *)
Definition rule_numbered : rule :=
  ("less", [["else"]; ["flag"; "t"]; ["number"; "7"]; ["label"; "pager"];
            ["flag"; "f"]]).

(** ** The rule selector, seen from outside *)

(** Conditions that hold without any file: the empty one and those
    whose function name starts with [!]. *)
Definition holds_without_files (c : condition) : bool :=
  match c with
  | [] => true
  | c0 :: _ => Str.startswith "!" c0
  end.

(** The commands of the rules, numbered from [n], without label and
    without flags. *)
Fixpoint numbered_from (n : Z) (rs : list rule) : list match_ :=
  match rs with
  | [] => []
  | (cmd, _) :: rest => (n, cmd, None, "") :: numbered_from (n + 1) rest
  end.


(** ** The dispatch driver, seen from outside *)

(** What the loop of [execute] does with the tuples it is handed, apart
    from building the command: the first tuple it selects, if any, with
    [found_at_least_one] and the binding of [flags] at that point. *)
Fixpoint select (label : option string) (number : Z) (found : bool)
    (flags : option string) (ms : list (match_ * State))
    : option (match_ * State) * bool * option string :=
  match ms with
  | [] => (None, found, flags)
  | (m, sm) :: rest =>
      if selected label number (match_count m) (match_label m)
      then (Some (m, sm), found, flags)
      else select label number true (Some (match_flags m)) rest
  end.


(** The line [_apply_flags] logs when the terminal is not an executable. *)
Definition terminal_warning : string :=
  "Can not determine terminal command.  " ++ "Please set $TERMCMD manually.".

(** The part of [execute] after its loop, under the comment
    [# Execute command], as a function of the two locals the loop
    leaves: [command] and [found_at_least_one]. *)
Definition execute_finish (label : option string) (number : Z)
    (res : option string * bool) : M unit :=
  let found_at_least_one := res.2 in
  match res.1 with
  | None =>
      if found_at_least_one then
        if label_given label
        then hook_logger ("Label '" ++ default "" label ++ "' is undefined")
        else hook_logger ("Method number " ++ Str.of_Z number ++ " is undefined.")
      else hook_logger "No action found."
  | Some command =>
      modify (fun s =>
        match environ s !! "PAGER" with
        | Some _ => s
        | None => set_environ (<["PAGER" := DEFAULT_PAGER]> (environ s)) s
        end) >>
      modify (fun s =>
        match environ s !! "EDITOR" with
        | Some _ => s
        | None => set_environ (<["EDITOR" := DEFAULT_EDITOR]> (environ s)) s
        end) >>
      let command := hook_command_postprocessing command in
      modify (fun s => set_spawned (spawned s ++ [command])%list s)
  end.

(** ** The tag store, seen from outside *)

(** Tokens without a line feed and without a carriage return. *)
Definition one_line (token : string) : bool :=
  negb (Str.mem "010" token) && negb (Str.mem "013" token).

(** Three lines of a configuration file: a rule, a line without
    delimiter, a comment. *)
Definition line_feh : string := "ext jpg = feh" ++ newline.
Definition line_bogus : string := "bogus" ++ newline.
Definition line_comment : string := "# comment" ++ newline.

(** ** The words of a shell line

    How the shell splits the first line of a command into words, for
    lines made of blanks, single-quoted strings, backslash escapes and
    the characters [a-z], [A-Z], [0-9], [-], [_], [.] and [/]: inside
    single quotes every character stands for itself up to the closing
    quote, a backslash outside quotes makes the next character stand for
    itself, and blanks outside quotes separate the words.  A line with
    anything else outside quotes, or with an open quote at its end, is
    answered with [None]. *)

Module Sh.

Inductive lex : Type :=
| Blank
| Word (w : string)
| Quote (w : string).

Definition push (w : string) (c : ascii) : string := w ++ String c EmptyString.

Definition current (st : lex) : string :=
  match st with
  | Blank => EmptyString
  | Word w => w
  | Quote w => w
  end.

(** The words so far, once the word being read has ended. *)
Definition close (st : lex) (acc : list string) : option (list string) :=
  match st with
  | Blank => Some acc
  | Word w => Some (acc ++ [w])%list
  | Quote _ => None
  end.

Definition is_plain (c : ascii) : bool :=
  Str.is_lower c || Str.is_upper c || Str.is_digit c || Str.mem c "-_./".

(** The words of the first line of [s], and the text after that line. *)
Fixpoint line (st : lex) (acc : list string) (s : string)
    : option (list string * string) :=
  match s with
  | EmptyString =>
      match close st acc with
      | Some ws => Some (ws, EmptyString)
      | None => None
      end
  | String c rest =>
      match st with
      | Quote w =>
          if Ascii.eqb c "'" then line (Word w) acc rest
          else line (Quote (push w c)) acc rest
      | _ =>
          if Ascii.eqb c "010" then
            match close st acc with
            | Some ws => Some (ws, rest)
            | None => None
            end
          else if Ascii.eqb c " " then
            match close st acc with
            | Some ws => line Blank ws rest
            | None => None
            end
          else if Ascii.eqb c "'" then line (Quote (current st)) acc rest
          else if Ascii.eqb c "\" then
            match rest with
            | String d rest' =>
                if Ascii.eqb d "010" then None
                else line (Word (push (current st) d)) acc rest'
            | EmptyString => None
            end
          else if is_plain c then line (Word (push (current st) c)) acc rest
          else None
      end
  end.

Definition first_line (s : string) : option (list string * string) :=
  line Blank [] s.

End Sh.

(** The file names [_build_command] binds: those without a NUL, and one
    empty name when there is none. *)
Definition bound_files (files : list string) : list string :=
  match List.filter (fun f => negb (Str.mem "000" f)) files with
  | [] => [EmptyString]
  | kept => kept
  end.

(** The world [w] with another [file] program. *)
Definition with_spawn_file (spawn : string -> result string) (w : World) : World :=
  mkWorld (re_search w) (get_executables w) (_is_terminal w) (abspath w)
          spawn (open_read w).

(** The binding of [flags] when the loop of [execute] is over without a
    [break]: the flags of the last tuple yielded, or the argument of
    [execute] when there was none. *)
Definition flags_after_loop (flags : option string)
    (ms : list (match_ * State)) : option string :=
  match last ms with
  | Some y => Some (match_flags y.1)
  | None => flags
  end.

(** ** ASCII text *)

(** [s.isascii()] *)
Definition isascii (s : string) : bool :=
  Str.all (fun c => (nat_of_ascii c <? 128)%nat) s.

(** The arguments of the [number] conditions are ASCII text of at most
    4300 characters.  For such an argument [isdigit] asks for the digits
    [0-9] and [int] does not raise: other digits are not ASCII, and the
    interpreter refuses to convert longer strings of digits unless its
    limit is raised. *)
Definition number_arguments_plain (tests : list condition) : bool :=
  forallb (fun c => negb (String.eqb (inner_function c) "number")
                    || (isascii (argument_of c)
                        && (String.length (argument_of c) <=? 4300)%nat))
          tests.

(** ** Which rules apply *)







(** * Properties *)

(** *** The text functions on the answers Python gives *)

Example split_ws1_examples :
  Str.split_ws1 "  ext  jpg png  " = ["ext"; "jpg png  "] /\
  Str.split_ws1 "a" = ["a"] /\
  Str.split_ws1 "   " = [] /\
  Str.split_ws1 "a  " = ["a"].
Proof. repeat split. Qed.

Example split_examples :
  Str.split "," "a,,b," = ["a"; ""; "b"; ""] /\
  Str.split "," "" = [""] /\
  Str.split_once "=" "a=b=c" = Some ("a", "b=c") /\
  Str.split_once "=" "abc" = None.
Proof. repeat split. Qed.

Example after_last_examples :
  Str.after_last "." "a.b.c" = "c" /\
  Str.after_last "." "abc" = "abc" /\
  Str.after_last "." "a." = "" /\
  basename "/x/y/a.jpgx" = "a.jpgx" /\
  basename "/x/y/" = "" /\
  basename "a" = "a".
Proof. repeat split. Qed.

Example readlines_example :
  Str.readlines ("a" ++ String "013" newline ++ "b" ++ String "013" "c"
                   ++ newline ++ newline ++ "d")
  = ["a" ++ newline; "b" ++ newline; "c" ++ newline; newline; "d"].
Proof. reflexivity. Qed.

Example isdigit_int_examples :
  Str.isdigit "1" = true /\ Str.isdigit "" = false /\
  Str.isdigit "12a" = false /\ Str.int "0012" = 12%Z /\
  Str.of_Z (-5) = "-5" /\ Str.of_nat 12 = "12".
Proof. repeat split. Qed.

Example re_examples :
  Re.search "^jpg|png$" "jpgx" = Some true /\
  Re.search "^jpg|png$" "xjpg" = Some false /\
  Re.search "^jpg$" ("jpg" ++ newline) = Some true /\
  Re.fullmatch "jpg|png" "jpgx" = Some false /\
  Re.search "a|" "" = Some true /\
  Re.search "(^)*" "" = Some true /\
  Re.search "^(a*)*$" "aaaa" = Some true /\
  Re.search "^(a*)*$" "aaaab" = Some false /\
  Re.search "^x?html?$" "xhtm" = Some true /\
  Re.search "a**" "" = None /\
  Re.search "^*" "" = None /\
  Re.search "(" "" = None /\
  Re.search "a)" "" = None.
Proof. repeat split. Qed.

(** *** Facts about [squash_flags] *)

Lemma mem_exclude_of (c : ascii) (flags : string) :
  Str.mem c flags = true -> c = Str.upper c ->
  Str.mem c (exclude_of flags) = true.
Proof.
  induction flags as [|d rest IH]; simpl; [discriminate|].
  intros Hin Hup.
  destruct (Ascii.eqb_spec c d) as [->|Hne]; simpl in Hin.
  - rewrite <- Hup, Ascii.eqb_refl. simpl. now rewrite Ascii.eqb_refl.
  - destruct (Ascii.eqb d (Str.upper d)); simpl; rewrite ?IH; auto.
    now rewrite !orb_true_r.
Qed.

Lemma filter_all (p : ascii -> bool) (s : string) :
  Str.all p (Str.filter p s) = true.
Proof.
  induction s as [|c rest IH]; simpl; [reflexivity|].
  destruct (p c) eqn:E; simpl; rewrite ?E; auto.
Qed.

Lemma filter_all_id (p : ascii -> bool) (s : string) :
  Str.all p s = true -> Str.filter p s = s.
Proof.
  induction s as [|c rest IH]; simpl; [reflexivity|].
  intros [-> H]%andb_prop. now rewrite IH.
Qed.

Lemma all_impl (p q : ascii -> bool) (s : string) :
  (forall c, Str.mem c s = true -> p c = true -> q c = true) ->
  Str.all p s = true -> Str.all q s = true.
Proof.
  induction s as [|c rest IH]; simpl; [reflexivity|].
  intros Hpq [Hc Hr]%andb_prop. rewrite (Hpq c).
  - apply IH; [|assumption]. intros d Hd. apply Hpq. now rewrite Hd, orb_true_r.
  - now rewrite Ascii.eqb_refl.
  - assumption.
Qed.

Lemma mem_filter (p : ascii -> bool) (c : ascii) (s : string) :
  Str.mem c (Str.filter p s) = true -> Str.mem c s = true.
Proof.
  induction s as [|d rest IH]; simpl; [discriminate|].
  destruct (p d); simpl; intros H.
  - apply orb_prop in H as [->|H]; [reflexivity|]. now rewrite IH, orb_true_r.
  - now rewrite IH, orb_true_r.
Qed.

(** Only characters that differ from their upper-case form survive. *)
Lemma squash_flags_lowercase (flags : string) :
  Str.all (fun f => negb (Ascii.eqb f (Str.upper f))) (squash_flags flags) = true.
Proof.
  unfold squash_flags.
  eapply all_impl; [|apply filter_all].
  intros c Hc Hex. simpl in Hex.
  destruct (Ascii.eqb_spec c (Str.upper c)) as [Hup|]; [|reflexivity].
  apply mem_filter in Hc. now rewrite (mem_exclude_of c flags Hc Hup) in Hex.
Qed.

Lemma exclude_of_lowercase (s : string) :
  Str.all (fun f => negb (Ascii.eqb f (Str.upper f))) s = true ->
  exclude_of s = EmptyString.
Proof.
  induction s as [|c rest IH]; simpl; [reflexivity|].
  intros [Hc Hr]%andb_prop. apply negb_true_iff in Hc. now rewrite Hc, IH.
Qed.

Lemma filter_sublist (p : ascii -> bool) (s : string) :
  sublist (Str.to_list (Str.filter p s)) (Str.to_list s).
Proof.
  induction s as [|c rest IH]; simpl; [constructor|].
  destruct (p c); simpl; now constructor.
Qed.

(** C8: [squash_flags] is idempotent, computes the three documented
    examples, and its result is the input with some characters deleted
    (the survivors keep their order). *)
Theorem squash_flags_idempotent_examples :
  (forall S : string, squash_flags (squash_flags S) = squash_flags S) /\
  squash_flags "abc" = "abc" /\
  squash_flags "abcC" = "ab" /\
  squash_flags "CabcAd" = "bd" /\
  (forall S : string,
      sublist (Str.to_list (squash_flags S)) (Str.to_list S)).
Proof.
  repeat split; try reflexivity.
  - intros S. pose proof (squash_flags_lowercase S) as Hlow.
    unfold squash_flags at 1. rewrite (exclude_of_lowercase _ Hlow).
    apply filter_all_id. simpl.
    clear. induction (squash_flags S); simpl; auto.
  - intros S. apply filter_sublist.
Qed.


(** *** The condition evaluator *)

(** C10: with an empty file list a non-empty condition evaluates to
    [True] when its function name starts with [!] and to [False]
    otherwise, whatever the function name is, and the state of the
    instance is the one it started from. *)
Theorem eval_condition_no_files (w : World) (function : string)
    (rest : list string) (label : option string) (s : State) :
  _eval_condition w (function :: rest) [] label s =
  if Str.startswith "!" function
  then Ok (PyBool true, s)
  else Ok (PyBool false, s).
Proof.
  unfold _eval_condition.
  destruct (Str.startswith "!" function); reflexivity.
Qed.

(** C5, as stated, fails on the empty file list: [else] is [False]
    there, so it is not [True] for every file list. *)
Lemma else_false_without_files :
  _eval_condition world0 ["else"] [] None state0 = Ok (PyBool false, state0) /\
  ~ (forall files : list string,
        _eval_condition world0 ["else"] files None state0
          = Ok (PyBool true, state0)).
Proof.
  split; [reflexivity|]. intros H. specialize (H []). discriminate H.
Qed.

(** C5, amended: a non-negated [else] condition is [True] for every
    non-empty file list, and [False] for the empty one; the state of the
    instance is unchanged. *)
Theorem else_true_with_files (w : World) (rest : list string)
    (file0 : string) (files : list string) (label : option string) (s : State) :
  _eval_condition w ("else" :: rest) (file0 :: files) label s
    = Ok (PyBool true, s) /\
  _eval_condition w ("else" :: rest) [] label s = Ok (PyBool false, s).
Proof. split; reflexivity. Qed.

Lemma startswith_bang (function : string) :
  Str.startswith "!" ("!" ++ function) = true.
Proof. simpl. now destruct function. Qed.

(** C6, as stated, fails for a condition that is itself negated: in a
    process without [DISPLAY], [!X] is [True], and so is its negated form
    [!!X], whose inner function name [!X] is none that
    [_eval_condition2] knows. *)
Lemma double_negation_not_inverted :
  _eval_condition world0 ["!X"] ["a"] None state0 = Ok (PyBool true, state0) /\
  _eval_condition world0 (negate ["!X"]) ["a"] None state0
    = Ok (PyBool true, state0) /\
  ~ (forall (c : condition) (files : list string),
        c <> [] ->
        _eval_condition world0 (negate c) files None state0 =
        match _eval_condition world0 c files None state0 with
        | Ok (v, s') => Ok (py_not v, s')
        | Raise e => Raise e
        end).
Proof.
  split; [reflexivity|]. split; [reflexivity|].
  intros H. specialize (H ["!X"] ["a"]). discriminate H. discriminate.
Qed.

(** C6, amended: for a condition whose function name does not itself
    start with [!], the negated form evaluates to [not v] where [v] is
    what the condition evaluates to, reaches the same state (every
    assignment to flags, label or skip-target is made), and raises what
    the condition raises. *)
Theorem negation_inverts_truth_value (w : World) (function : string)
    (rest : list string) (files : list string) (label : option string)
    (s : State) :
  Str.startswith "!" function = false ->
  _eval_condition w (negate (function :: rest)) files label s =
  match _eval_condition w (function :: rest) files label s with
  | Ok (v, s') => Ok (py_not v, s')
  | Raise e => Raise e
  end.
Proof.
  intros Hplain. unfold negate, _eval_condition.
  rewrite startswith_bang, Hplain. simpl.
  unfold bind, ret.
  destruct (_eval_condition2 w (function :: rest) files label s) as [[v s']|e];
    reflexivity.
Qed.

Lemma negation_inverts_truth_value_witness :
  Str.startswith "!" "flag" = false /\
  _eval_condition world0 (negate ["flag"; "f"]) ["a"] None state0 =
  match _eval_condition world0 ["flag"; "f"] ["a"] None state0 with
  | Ok (v, s') => Ok (py_not v, s')
  | Raise e => Raise e
  end.
Proof.
  split; [reflexivity|].
  apply (negation_inverts_truth_value world0 "flag" ["f"] ["a"] None state0).
  reflexivity.
Defined.

(** A function name outside the recognized ones falls through every
    comparison of [_eval_condition2]. *)
Lemma eval_condition2_unrecognized (w : World) (function : string)
    (rest : list string) (file0 : string) (files : list string)
    (label : option string) (s : State) :
  recognized function = false ->
  _eval_condition2 w (function :: rest) (file0 :: files) label s
    = Ok (PyNone, s).
Proof.
  unfold recognized, recognized_functions. intros H.
  apply bool_decide_eq_false in H.
  unfold _eval_condition2.
  repeat match goal with
  | |- context [String.eqb function ?n] =>
      destruct (String.eqb_spec function n) as [->|_];
      [exfalso; apply H; set_solver|]
  end.
  reflexivity.
Qed.

(** *** The config loader *)

Lemma split_once_mem (sep : ascii) (s : string) :
  Str.mem sep s = bool_decide (is_Some (Str.split_once sep s)).
Proof.
  induction s as [|c rest IH]; simpl; [reflexivity|].
  rewrite (Ascii.eqb_sym sep c).
  destruct (Ascii.eqb c sep); simpl; [reflexivity|].
  rewrite IH. destruct (Str.split_once sep rest) as [[a b]|]; reflexivity.
Qed.

(** A line raises in the [try] block exactly when it lacks the delimiter,
    and the message is then always the same: nothing else is checked. *)
Lemma parse_line_cases (line : string) :
  match parse_line line with
  | inr _ => Str.mem delimiter1 line = true
  | inl e => e = "Line without delimiter" /\ Str.mem delimiter1 line = false
  end.
Proof.
  unfold parse_line. rewrite split_once_mem.
  destruct (Str.split_once delimiter1 line) as [[a b]|]; simpl; auto.
Qed.

(** The loop of [reload_config] never raises; it stores the rules of the
    lines holding a delimiter and logs one message for every other line
    it does not skip. *)
Lemma reload_loop_spec (cf : string) (lines : list string) (lineno : nat)
    (acc : list rule) (s : State) :
  reload_loop cf lines lineno acc s =
  Ok (tt, set_rules (Some (acc ++ rules_of lines)%list)
            (set_stderr (stderr s ++ diagnostics_of cf lineno lines)%list s)).
Proof.
  revert lineno acc s.
  induction lines as [|line rest IH]; intros lineno acc s; simpl.
  - rewrite !app_nil_r. now destruct s.
  - fold (skipped line).
    destruct (skipped line); [apply IH|].
    destruct (parse_line (Str.strip line)) as [e|r].
    + unfold bind, hook_logger, modify. rewrite IH. simpl.
      now rewrite <- app_assoc.
    + rewrite IH. now rewrite <- app_assoc.
Qed.

Lemma rules_of_app (l1 l2 : list string) :
  rules_of (l1 ++ l2)%list = (rules_of l1 ++ rules_of l2)%list.
Proof.
  induction l1 as [|line rest IH]; simpl; [reflexivity|].
  destruct (skipped line); [assumption|].
  destruct (parse_line (Str.strip line)); simpl; now rewrite ?IH.
Qed.

Lemma diagnostics_of_app (cf : string) (n : nat) (l1 l2 : list string) :
  diagnostics_of cf n (l1 ++ l2)%list =
  (diagnostics_of cf n l1
    ++ diagnostics_of cf (n + length (List.filter (fun l => negb (skipped l)) l1)) l2)%list.
Proof.
  revert n. induction l1 as [|line rest IH]; intros n; simpl.
  - now rewrite Nat.add_0_r.
  - destruct (skipped line); simpl; [apply IH|].
    destruct (parse_line (Str.strip line)); simpl; rewrite IH;
      now rewrite <- Nat.add_assoc.
Qed.

Lemma diagnostics_of_none (cf : string) (n : nat) (lines : list string) :
  Forall (fun l => malformed l = false) lines ->
  diagnostics_of cf n lines = [].
Proof.
  intros H. revert n. induction H as [|line rest Hl _ IH]; intros n; simpl;
    [reflexivity|].
  unfold malformed in Hl.
  destruct (skipped line); [apply IH|].
  pose proof (parse_line_cases (Str.strip line)) as Hc.
  destruct (parse_line (Str.strip line)) as [e|r]; [|apply IH].
  destruct Hc as [_ Hc]. rewrite Hc in Hl. discriminate.
Qed.

Lemma rules_of_length (lines : list string) :
  length (rules_of lines) = length (List.filter well_formed lines).
Proof.
  induction lines as [|line rest IH]; simpl; [reflexivity|].
  unfold well_formed at 1.
  destruct (skipped line); simpl; [assumption|].
  pose proof (parse_line_cases (Str.strip line)) as Hc.
  destruct (parse_line (Str.strip line)) as [e|r].
  - destruct Hc as [_ ->]. assumption.
  - rewrite Hc. simpl. now rewrite IH.
Qed.

(** Config tolerance: one line without delimiter among lines that are
    skipped or hold one.  Loading ends normally, stores one rule for each
    line holding a delimiter, in their order, and logs one message.  The
    number in the message is one more than the number of lines before the
    offending one that were not skipped. *)
Lemma reload_tolerates_one_malformed (cf : string) (pre post : list string)
    (bad : string) (s : State) :
  malformed bad = true ->
  Forall (fun l => malformed l = false) (pre ++ post)%list ->
  exists s',
    reload_loop cf (pre ++ bad :: post)%list 1 [] s = Ok (tt, s') /\
    rules s' = Some (rules_of (pre ++ post)%list) /\
    length (rules_of (pre ++ post)%list)
      = length (List.filter well_formed (pre ++ post)%list) /\
    stderr s' = (stderr s ++
      [syntax_error cf (1 + length (List.filter (fun l => negb (skipped l)) pre))
                    "Line without delimiter"])%list.
Proof.
  intros Hbad Hrest. apply Forall_app in Hrest as [Hpre Hpost].
  eexists. split; [apply reload_loop_spec|]. simpl.
  unfold malformed in Hbad. apply andb_prop in Hbad as [Hs Hd].
  apply negb_true_iff in Hs, Hd.
  pose proof (parse_line_cases (Str.strip bad)) as Hc.
  split; [|split].
  - rewrite !rules_of_app. simpl. rewrite Hs.
    destruct (parse_line (Str.strip bad)); [reflexivity|congruence].
  - apply rules_of_length.
  - rewrite diagnostics_of_app, (diagnostics_of_none _ _ pre Hpre). simpl.
    rewrite Hs.
    destruct (parse_line (Str.strip bad)) as [e|r]; [|congruence].
    destruct Hc as [-> _]. now rewrite (diagnostics_of_none _ _ post Hpost).
Qed.

(** C3 at a file whose first line is a comment: the line without
    delimiter is the second line of the file, the rule is loaded and one
    message is logged, but the message names line 1, since the counter is
    not advanced for the comment. *)
Theorem reload_config_lineno_skips_comments :
  Str.readlines config_comment_first
    = ["# comment" ++ newline; "bogus" ++ newline; "ext jpg = feh" ++ newline] /\
  exists s',
    loaded (world_with_config "rifle.conf" config_comment_first) "rifle.conf"
      = Ok (tt, s') /\
    rules s' = Some [("feh", [["ext"; "jpg"]])] /\
    stderr s' = ["Syntax error in rifle.conf line 1 (Line without delimiter)"].
Proof.
  split; [reflexivity|].
  eexists. split; [vm_compute; reflexivity|]. split; reflexivity.
Qed.

(** C2, as stated, fails: a rule with the unknown function name
    [frobnicate] is loaded without any message, and the evaluation of
    the loaded rule meets the name and falls through with [None]. *)
Lemma unknown_function_loaded_silently :
  recognized "frobnicate" = false /\
  exists s',
    loaded (world_with_config "rifle.conf" config_unknown_function) "rifle.conf"
      = Ok (tt, s') /\
    rules s' = Some [("cmd", [["frobnicate"; "x"]])] /\
    stderr s' = [] /\
    _eval_condition2 world0 ["frobnicate"; "x"] ["a"] None s' = Ok (PyNone, s').
Proof.
  split; [reflexivity|].
  eexists. split; [vm_compute; reflexivity|]. repeat split.
Qed.

Lemma diagnostics_of_delimiter (cf : string) (n : nat) (lines : list string) :
  Forall (fun msg => exists k, msg = syntax_error cf k "Line without delimiter")
         (diagnostics_of cf n lines).
Proof.
  revert n. induction lines as [|line rest IH]; intros n; simpl; [constructor|].
  destruct (skipped line); [apply IH|].
  pose proof (parse_line_cases (Str.strip line)) as Hc.
  destruct (parse_line (Str.strip line)) as [e|r]; [|apply IH].
  destruct Hc as [-> _]. constructor; [now exists n|apply IH].
Qed.

(** C2, amended: loading does not look at function names.  Whatever the
    lines are, loading ends normally and every message it logs is about a
    missing delimiter; a line that is not skipped (it neither starts with
    [#] nor is empty) and holds the delimiter always becomes a rule,
    whatever its function names are: the rules stored are those of the
    lines of this kind before it, the rule of the line, and those of the
    lines of this kind after it.  An unknown function name is met when
    the rule is evaluated: with a non-empty file list the condition
    evaluates to [None], nothing is logged and the state is unchanged. *)
Theorem function_names_unchecked_at_load :
  (forall (cf : string) (lines : list string) (s : State),
      exists s',
        reload_loop cf lines 1 [] s = Ok (tt, s') /\
        Forall (fun msg => msg ∈ stderr s \/
                  exists k, msg = syntax_error cf k "Line without delimiter")
               (stderr s')) /\
  (forall (cf : string) (pre post : list string) (line : string) (s : State),
      well_formed line = true ->
      exists (r : rule) (before after : list rule) (s' : State),
        parse_line (Str.strip line) = inr r /\
        reload_loop cf (pre ++ line :: post)%list 1 [] s = Ok (tt, s') /\
        rules s' = Some (before ++ r :: after)%list /\
        length before = length (List.filter well_formed pre) /\
        length after = length (List.filter well_formed post)) /\
  (forall (w : World) (function : string) (rest : list string)
          (file0 : string) (files : list string) (label : option string)
          (s : State),
      recognized function = false ->
      _eval_condition2 w (function :: rest) (file0 :: files) label s
        = Ok (PyNone, s)).
Proof.
  split; [|split].
  - intros cf lines s. eexists. split; [apply reload_loop_spec|]. simpl.
    apply Forall_app. split.
    + apply Forall_forall. intros msg Hin. now left.
    + eapply Forall_impl; [apply diagnostics_of_delimiter|].
      intros msg [k ->]. right. now exists k.
  - intros cf pre post line s Hw.
    unfold well_formed in Hw. apply andb_prop in Hw as [Hs Hd].
    apply negb_true_iff in Hs.
    pose proof (parse_line_cases (Str.strip line)) as Hc.
    destruct (parse_line (Str.strip line)) as [e|r] eqn:Hp.
    { destruct Hc as [_ Hc]. congruence. }
    exists r, (rules_of pre), (rules_of post). eexists.
    split; [reflexivity|]. split; [apply reload_loop_spec|]. simpl.
    split; [|split; apply rules_of_length].
    rewrite rules_of_app. simpl. now rewrite Hs, Hp.
  - apply eval_condition2_unrecognized.
Qed.

Lemma function_names_unchecked_at_load_witness :
  recognized "frobnicate" = false /\
  well_formed config_unknown_function = true /\
  (exists (r : rule) (before after : list rule) (s' : State),
      parse_line (Str.strip config_unknown_function) = inr r /\
      reload_loop "rifle.conf"
        ([String "#" line_feh] ++ config_unknown_function :: [line_feh])%list
        1 [] state0 = Ok (tt, s') /\
      rules s' = Some (before ++ r :: after)%list /\
      length before = length (List.filter well_formed [String "#" line_feh]) /\
      length after = length (List.filter well_formed [line_feh])) /\
  _eval_condition2 world0 ["frobnicate"; "x"] ["a"] None state0
    = Ok (PyNone, state0).
Proof.
  split; [reflexivity|]. split; [reflexivity|]. split.
  - apply (proj1 (proj2 function_names_unchecked_at_load)). reflexivity.
  - apply (proj2 (proj2 function_names_unchecked_at_load)). reflexivity.
Defined.

(** What the [ext] condition computes in any world: a search for the
    pattern between [^] and [$] in the text after the last dot of the
    base name (all of the base name when it has no dot). *)
Lemma ext_condition_search (w : World) (argument : string)
    (rest : list string) (file0 : string) (files : list string)
    (label : option string) (s : State) :
  _eval_condition2 w ("ext" :: argument :: rest) (file0 :: files) label s =
  match re_search w ("^" ++ argument ++ "$")
                  (Str.after_last "." (basename file0)) with
  | Ok b => Ok (PyBool b, s)
  | Raise e => Raise e
  end.
Proof.
  unfold _eval_condition2, bind, lift, ret. simpl.
  now destruct (re_search w _ _).
Qed.

(** C4 at the pattern [jpg|png] and the file [a.jpgx]: the extension is
    [jpgx], which the pattern does not match as a whole, yet the
    condition is [True], because in [^jpg|png$] each anchor belongs to
    one branch of the alternation only. *)
Theorem ext_alternation_escapes_anchors (s : State) :
  Str.after_last "." (basename "a.jpgx") = "jpgx" /\
  Re.fullmatch "jpg|png" "jpgx" = Some false /\
  Re.search ("^" ++ "jpg|png" ++ "$") "jpgx" = Some true /\
  _eval_condition2 world0 ["ext"; "jpg|png"] ["a.jpgx"] None s
    = Ok (PyBool true, s).
Proof. repeat split. Qed.

(** *** The rule selector *)

Lemma try_rule_some (w : World) (files : list string) (count : Z)
    (cmd : string) (tests : list condition) (s s' : State) (m : match_) :
  try_rule w files count (cmd, tests) s = Ok (Some m, s') ->
  m = (match _skip s' with None => (count + 1)%Z | Some n => n end,
       cmd, _app_label s', _app_flags s').
Proof.
  unfold try_rule, bind, modify, gets, ret.
  destruct (eval_tests w tests files _) as [[[|] s1]|e]; intros H;
    [injection H as <- <-; reflexivity | discriminate | discriminate].
Qed.

#[local] Arguments try_rule : simpl never.



(** Running the generator to its end is resuming it until it is
    exhausted. *)
Lemma list_commands_loop_next (w : World) (files : list string) (count : Z)
    (rs : list rule) (s : State) :
  list_commands_loop w files count rs s =
  match list_commands_next w files count rs s with
  | Raise e => ([], Raise e)
  | Ok (None, s') => ([], Ok s')
  | Ok (Some (m, (count', rest)), s') =>
      let (ms, out) := list_commands_loop w files count' rest s' in
      ((m, s') :: ms, out)
  end.
Proof.
  revert s. induction rs as [|r rest IH]; intros s; simpl; [reflexivity|].
  unfold bind.
  destruct (try_rule w files count r s) as [[[m|] s']|e]; auto.
Qed.

(** *** Which rules the generator yields

    The truth value of a condition does not depend on the state the
    generator has reached: the conditions evaluated before assign the
    skip-target, the label, the flags and the cached MIME type only, and
    the cached type is the answer the [file] program gives again. *)












(** *** The dispatch driver *)

(** The loop of [execute] resumes the generator, runs its body on the
    tuple yielded, and runs its [else] branch when the generator is
    exhausted. *)
Lemma execute_loop_next (w : World) (files : list string) (number : Z)
    (label : option string) (flags : option string) (found : bool)
    (count : Z) (rs : list rule) (s : State) :
  execute_loop w files number label flags found count rs s =
  match list_commands_next w files count rs s with
  | Raise e => Raise e
  | Ok (None, s') => execute_else w files label flags found s'
  | Ok (Some ((count', cmd, lbl, flags'), (_, rest)), s') =>
      if selected label number count' lbl then
        bind (_build_command w files (hook_command_preprocessing cmd) (Some flags'))
             (fun command => ret (Some command, found)) s'
      else execute_loop w files number label (Some flags') true count' rest s'
  end.
Proof.
  revert s. induction rs as [|r rest IH]; intros s; simpl; [reflexivity|].
  unfold bind at 1 3.
  destruct (try_rule w files count r s) as [[[[[[c cmd] lbl] fl]|] s']|e]; auto.
  cbv [ret]. now destruct (selected label number c lbl).
Qed.

(** Once the generator has yielded a tuple, the [flags] argument of
    [execute] no longer plays a part: the loop has rebound the name. *)
Lemma execute_loop_caller_flags_unused (w : World) (files : list string)
    (number : Z) (label : option string) (flags1 flags2 : option string)
    (found : bool) (count : Z) (rs : list rule) (s : State) :
  (list_commands_loop w files count rs s).1 <> [] ->
  execute_loop w files number label flags1 found count rs s =
  execute_loop w files number label flags2 found count rs s.
Proof.
  revert found count s.
  induction rs as [|r rest IH]; intros found count s; simpl.
  - intros H. now contradiction H.
  - unfold bind.
    destruct (try_rule w files count r s) as [[[m|] s']|e]; auto.
Qed.

(** The command builder, called with the flags of the tuple just
    yielded, squashes these flags doubled. *)
Lemma build_command_after_yield (w : World) (files : list string)
    (count : Z) (r : rule) (s s' s'' : State) (m : match_)
    (command : string) :
  try_rule w files count r s = Ok (Some m, s') ->
  _build_command w files (match_cmd m) (Some (match_flags m)) s'
    = Ok (command, s'') ->
  _app_flags s'' = squash_flags (match_flags m ++ match_flags m).
Proof.
  destruct r as [cmd tests]. intros Hy%try_rule_some. subst m.
  unfold _build_command, match_flags, bind, modify, gets, ret. simpl.
  set (fl := squash_flags (_app_flags s' ++ _app_flags s')).
  unfold _apply_flags, bind, gets, modify, ret, raise, hook_logger. simpl.
  destruct (Str.mem "t" fl); simpl.
  - destruct (environ s' !! "TERMCMD"); simpl.
    + intros H. injection H as _ <-. reflexivity.
    + destruct (environ s' !! "TERM"); simpl; [|discriminate].
      case_bool_decide; simpl; intros Heq; injection Heq as _ <-; reflexivity.
  - intros H. injection H as _ <-. reflexivity.
Qed.

(** C1 at the example of the docstring of [execute]: the rule has the
    flags [pw], the caller passes [Pf].  Merging and squashing gives
    [wf]; the builder works with [pwpw] instead and the command is run
    without the wrapper of the flag [f]. *)
Theorem execute_loses_caller_flags :
  let w := world_with_config "rifle.conf" config_flags_pw in
  squash_flags ("pw" ++ "Pf") = "wf" /\
  exists s s',
    loaded w "rifle.conf" = Ok (tt, s) /\
    rules s = Some [("cmd", [["flag"; "pw"]])] /\
    execute w ["a"] 0 None (Some "Pf") None s = Ok (tt, s') /\
    _app_flags s' = "pwpw" /\
    spawned s' = ["set -- 'a'" ++ newline ++ "cmd"].
Proof.
  intros w. split; [reflexivity|].
  eexists. eexists. split; [vm_compute; reflexivity|].
  split; [reflexivity|]. split; [vm_compute; reflexivity|].
  split; reflexivity.
Qed.

(** Dispatch on the configuration [ext jpg = feh -- "$@"]: the file
    [a.jpg] is opened by the command of the rule, behind the preamble
    that binds the quoted file name; for [a.txt] nothing is run and
    [No action found.] is logged. *)
Example execute_feh :
  let w := world_with_config "rifle.conf" config_feh in
  exists s s1 s2,
    loaded w "rifle.conf" = Ok (tt, s) /\
    execute w ["a.jpg"] 0 None None None s = Ok (tt, s1) /\
    spawned s1 = ["set -- 'a.jpg'" ++ newline ++ "feh -- " ++ dquote ++ "$@" ++ dquote] /\
    stderr s1 = [] /\
    execute w ["a.txt"] 0 None None None s = Ok (tt, s2) /\
    spawned s2 = [] /\
    stderr s2 = ["No action found."].
Proof.
  intros w. do 3 eexists.
  split; [vm_compute; reflexivity|].
  split; [vm_compute; reflexivity|].
  split; [reflexivity|]. split; [reflexivity|].
  split; [vm_compute; reflexivity|].
  split; reflexivity.
Qed.

(** *** The tag store *)

Section TagsFacts.
Import Tags.

Lemma translate_newlines_line (t w : string) :
  Str.mem "013" t = false ->
  Str.translate_newlines (t ++ newline ++ w)
    = t ++ newline ++ Str.translate_newlines w.
Proof.
  induction t as [|c rest IH]; [reflexivity|]. intros H.
  change (Str.mem "013" (String c rest))
    with (Ascii.eqb "013" c || Str.mem "013" rest) in H.
  apply orb_false_elim in H as [Hc Hr]. rewrite Ascii.eqb_sym in Hc.
  change (String c rest ++ newline ++ w)
    with (String c (rest ++ newline ++ w)).
  cbn [Str.translate_newlines]. rewrite Hc. now rewrite IH.
Qed.

Lemma lines_go_line (cur : string -> string) (t w : string) :
  Str.mem "010" t = false ->
  Str.lines_go cur (t ++ newline ++ w)
    = cur (t ++ newline) :: Str.lines w.
Proof.
  revert cur. induction t as [|c rest IH]; intros cur; [reflexivity|].
  intros H.
  change (Str.mem "010" (String c rest))
    with (Ascii.eqb "010" c || Str.mem "010" rest) in H.
  apply orb_false_elim in H as [Hc Hr]. rewrite Ascii.eqb_sym in Hc.
  change (String c rest ++ newline ++ w)
    with (String c (rest ++ newline ++ w)).
  cbn [Str.lines_go]. rewrite Hc. now rewrite IH.
Qed.

Lemma lstrip_length (s : string) :
  String.length (Str.lstrip s) <= String.length s.
Proof.
  induction s as [|c rest IH]; simpl; [lia|].
  destruct (Str.is_space c); simpl; lia.
Qed.

Lemma rstrip_length (s : string) :
  String.length (Str.rstrip s) <= String.length s.
Proof.
  induction s as [|c rest IH]; simpl; [lia|].
  destruct (Str.rstrip rest); [destruct (Str.is_space c)|]; simpl in *; lia.
Qed.

Lemma rstrip_newline (s : string) :
  Str.rstrip (s ++ newline) = Str.rstrip s.
Proof.
  induction s as [|c rest IH]; simpl; [reflexivity|]. now rewrite IH.
Qed.

Lemma strip_line (t : string) :
  Str.strip t = t -> Str.strip (t ++ newline) = t.
Proof.
  unfold Str.strip. destruct t as [|c rest]; [reflexivity|].
  simpl. destruct (Str.is_space c) eqn:Hc.
  - intros H. exfalso.
    pose proof (rstrip_length (Str.lstrip rest)) as H1.
    pose proof (lstrip_length rest) as H2.
    rewrite H in H1. simpl in H1. lia.
  - intros H. change (String c (rest ++ newline)) with (String c rest ++ newline).
    now rewrite rstrip_newline.
Qed.

Lemma clean_spec (t : string) :
  clean t = true ->
  Str.strip t = t /\ Str.mem "010" t = false /\ Str.mem "013" t = false.
Proof.
  unfold clean. intros [[H1 H2]%andb_prop H3]%andb_prop.
  apply String.eqb_eq in H1. apply negb_true_iff in H2, H3. auto.
Qed.

(** Reading back what [_compile] wrote for a list of clean tokens. *)
Lemma parse_written (l : list string) (acc : gset string) :
  Forall (fun t => clean t = true) l ->
  foldl (fun result line => result ∪ {[Str.strip line]}) acc
    (Str.readlines (foldr (fun line written => line ++ newline ++ written) "" l))
  = acc ∪ list_to_set l.
Proof.
  intros H. revert acc. induction H as [|t l Ht _ IH]; intros acc; simpl.
  - set_solver.
  - apply clean_spec in Ht as (Hs & Hn & Hr).
    unfold Str.readlines, Str.lines in *.
    rewrite translate_newlines_line, lines_go_line by assumption.
    simpl. rewrite IH, strip_line by assumption. set_solver.
Qed.

(** A set of clean tokens survives [dump] followed by the [sync] of any
    instance, whatever order the set is written in. *)
Lemma parse_compile (o : SetOrder) (T : gset string) :
  set_Forall (fun t => clean t = true) T ->
  _parse (_compile o T) = T.
Proof.
  intros H. unfold _parse, _compile. rewrite parse_written.
  - rewrite (list_to_set_perm_L _ _ (set_iter_perm o T)).
    rewrite list_to_set_elements_L. set_solver.
  - apply Forall_forall. intros t Ht. apply H.
    rewrite (set_iter_perm o T) in Ht. now apply elem_of_elements.
Qed.

Lemma stored_after_dump (o : SetOrder) (d : bool) (T : gset string) :
  set_Forall (fun t => clean t = true) T ->
  stored (mkFs d (Some (_compile o T))) = Some T.
Proof.
  intros H. unfold stored, __init__, sync. simpl.
  rewrite andb_false_r. simpl. now rewrite parse_compile.
Qed.

Lemma sync_after_dump (o : SetOrder) (d : bool) (T : gset string) (self : t) :
  set_Forall (fun t => clean t = true) T ->
  sync (mkFs d (Some (_compile o T))) self = mkTags (_filename self) (Some T).
Proof. intros H. unfold sync. simpl. now rewrite parse_compile. Qed.

Lemma clean_ab :
  set_Forall (fun t => clean t = true) ({["a"; "b"]} : gset string).
Proof.
  intros x [Hx|Hx]%elem_of_union; apply elem_of_singleton in Hx; now subst.
Qed.

Lemma clean_b : set_Forall (fun t => clean t = true) ({["b"]} : gset string).
Proof. intros x Hx%elem_of_singleton. now subst. Qed.

(** Toggling a clean token twice in a store of clean tokens: the first
    call flips the membership of the token in the stored set, the
    second restores the stored set. *)
Lemma toggle_twice_restores (o o1 o2 : SetOrder) (d : bool) (T : gset string)
    (x : string) (self : t) :
  set_Forall (fun t => clean t = true) T ->
  clean x = true ->
  exists fs1 t1 fs2 t2 T1,
    toggle o1 [x] (mkFs d (Some (_compile o T))) self = Ok (fs1, t1) /\
    stored fs1 = Some T1 /\ (x ∈ T1 <-> x ∉ T) /\
    toggle o2 [x] fs1 t1 = Ok (fs2, t2) /\
    stored fs2 = Some T.
Proof.
  intros HT Hx. unfold toggle. rewrite (sync_after_dump _ _ _ _ HT).
  cbn [toggle_items tags _filename].
  destruct (decide (x ∈ T)) as [Hin|Hout].
  - rewrite (bool_decide_eq_true_2 _ Hin).
    assert (HT1 : set_Forall (fun t => clean t = true) (T ∖ {[x]})).
    { intros y Hy. apply HT. set_solver. }
    unfold then_dump, dump; cbn [content dir_exists tags].
    rewrite orb_true_r.
    do 5 eexists. split; [reflexivity|].
    split; [apply (stored_after_dump _ _ _ HT1)|].
    split; [set_solver|].
    rewrite (sync_after_dump _ _ _ _ HT1). cbn [toggle_items tags _filename].
    rewrite bool_decide_eq_false_2 by set_solver.
    cbn [content dir_exists tags]. rewrite orb_true_r.
    split; [reflexivity|].
    replace (T ∖ {[x]} ∪ {[x]}) with T.
    + apply (stored_after_dump _ _ _ HT).
    + apply set_eq. intros y. rewrite elem_of_union, elem_of_difference,
        elem_of_singleton. destruct (decide (y = x)); naive_solver.
  - rewrite (bool_decide_eq_false_2 _ Hout).
    assert (HT1 : set_Forall (fun t => clean t = true) (T ∪ {[x]})).
    { intros y [Hy|Hy]%elem_of_union; [now apply HT|].
      apply elem_of_singleton in Hy. now subst. }
    unfold then_dump, dump; cbn [content dir_exists tags].
    rewrite orb_true_r.
    do 5 eexists. split; [reflexivity|].
    split; [apply (stored_after_dump _ _ _ HT1)|].
    split; [set_solver|].
    rewrite (sync_after_dump _ _ _ _ HT1). cbn [toggle_items tags _filename].
    rewrite bool_decide_eq_true_2 by set_solver.
    cbn [content dir_exists tags]. rewrite orb_true_r.
    split; [reflexivity|].
    replace ((T ∪ {[x]}) ∖ {[x]}) with T by set_solver.
    apply (stored_after_dump _ _ _ HT).
Qed.

(** C9: on an existing, empty tag file, after [add] of the tokens [a]
    and [b] a fresh instance holds the set of [a] and [b]; [toggle] of
    [a] leaves [b] alone in the instance and in the file; a second
    [toggle] of [a] brings the set of [a] and [b] back, in the instance
    and in the file.  This holds whatever the orders are in which the
    three calls write the set to the file. *)
Theorem tags_round_trip (o1 o2 o3 : SetOrder) :
  exists fs1 t1 fs2 t2 fs3 t3,
    add o1 ["a"; "b"] (__init__ "tags" empty_file).1
        (__init__ "tags" empty_file).2 = Ok (fs1, t1) /\
    stored fs1 = Some {["a"; "b"]} /\
    toggle o2 ["a"] fs1 (__init__ "tags" fs1).2 = Ok (fs2, t2) /\
    tags t2 = Some {["b"]} /\
    stored fs2 = Some {["b"]} /\
    toggle o3 ["a"] fs2 t2 = Ok (fs3, t3) /\
    tags t3 = Some {["a"; "b"]} /\
    stored fs3 = Some {["a"; "b"]}.
Proof.
  exists (mkFs true (Some (_compile o1 {["a"; "b"]}))),
         (mkTags "tags" (Some {["a"; "b"]})).
  exists (mkFs true (Some (_compile o2 {["b"]}))),
         (mkTags "tags" (Some {["b"]})).
  exists (mkFs true (Some (_compile o3 {["a"; "b"]}))),
         (mkTags "tags" (Some {["a"; "b"]})).
  split; [reflexivity|].
  split; [apply stored_after_dump, clean_ab|].
  split.
  { unfold toggle. rewrite (sync_after_dump _ _ _ _ clean_ab). reflexivity. }
  split; [reflexivity|].
  split; [apply stored_after_dump, clean_b|].
  split.
  { unfold toggle. rewrite (sync_after_dump _ _ _ _ clean_b). reflexivity. }
  split; [reflexivity|].
  apply stored_after_dump, clean_ab.
Qed.

End TagsFacts.

(** * Further properties of the code *)

(** *** What one condition may assign *)

Ltac step_monad :=
  unfold bind, ret, raise, gets, modify, lift in *; simpl in *.

(** The only assignments of [_eval_condition2], by function name. *)
Lemma eval_condition2_effect (w : World) (function : string)
    (rest : list string) (files : list string) (label : option string)
    (s s' : State) (v : pyval) :
  _eval_condition2 w (function :: rest) files label s = Ok (v, s') ->
  s' = s \/
  (function = "mime" /\ exists m, s' = set_mimetype (Some m) s) \/
  (function = "number" /\
     s' = set_skip (Some (Str.int (argument_of (function :: rest)))) s) \/
  (function = "label" /\
     s' = set_app_label (Some (argument_of (function :: rest))) s) \/
  (function = "flag" /\
     s' = set_app_flags (argument_of (function :: rest)) s).
Proof.
  unfold _eval_condition2, argument_of.
  set (argument := match rest with a :: _ => a | [] => "" end).
  destruct files as [|file0 files]; [intros [= _ <-]; now left|].
  destruct (String.eqb_spec function "ext") as [->|_].
  { step_monad. destruct (re_search w _ _); intros [= _ <-]; now left. }
  destruct (String.eqb_spec function "name") as [->|_].
  { step_monad. destruct (re_search w _ _); intros [= _ <-]; now left. }
  destruct (String.eqb_spec function "path") as [->|_].
  { step_monad. destruct (re_search w _ _); intros [= _ <-]; now left. }
  destruct (String.eqb_spec function "mime") as [->|_].
  { unfold _get_mimetype. step_monad.
    destruct (_mimetype s) as [[|c m]|].
    - destruct (spawn_file w file0) as [m|e]; [|discriminate]. simpl.
      destruct (re_search w _ _); intros [= _ <-]. right; left. eauto.
    - destruct (re_search w _ _); intros [= _ <-]; now left.
    - destruct (spawn_file w file0) as [m|e]; [|discriminate]. simpl.
      destruct (re_search w _ _); intros [= _ <-]. right; left. eauto. }
  destruct (String.eqb_spec function "has") as [->|_].
  { intros [= _ <-]; now left. }
  destruct (String.eqb_spec function "terminal") as [->|_].
  { intros [= _ <-]; now left. }
  destruct (String.eqb_spec function "number") as [->|_].
  { step_monad. destruct (Str.isdigit argument); intros [= _ <-]; auto. }
  destruct (String.eqb_spec function "label") as [->|_].
  { step_monad. destruct (label_given label); intros [= _ <-]; auto 6. }
  destruct (String.eqb_spec function "flag") as [->|_].
  { step_monad. intros [= _ <-]; auto 6. }
  destruct (String.eqb_spec function "X") as [->|_].
  { intros [= _ <-]; now left. }
  destruct (String.eqb_spec function "else") as [->|_].
  { intros [= _ <-]; now left. }
  intros [= _ <-]; now left.
Qed.

(** With files to look at, the three scratch attributes after
    [_eval_condition2] are fixed by the function name and the argument. *)
Lemma eval_condition2_scratch (w : World) (function : string)
    (rest : list string) (file0 : string) (files : list string)
    (label : option string) (s s' : State) (v : pyval) :
  _eval_condition2 w (function :: rest) (file0 :: files) label s = Ok (v, s') ->
  let argument := argument_of (function :: rest) in
  _app_flags s' = (if String.eqb function "flag" then argument else _app_flags s) /\
  _app_label s' =
    (if String.eqb function "label" then Some argument else _app_label s) /\
  _skip s' =
    (if String.eqb function "number" && Str.isdigit argument
     then Some (Str.int argument) else _skip s).
Proof.
  unfold _eval_condition2, argument_of. cbv zeta.
  set (argument := match rest with a :: _ => a | [] => "" end).
  destruct (String.eqb_spec function "ext") as [->|_].
  { step_monad. destruct (re_search w _ _); intros [= _ <-]; auto. }
  destruct (String.eqb_spec function "name") as [->|_].
  { step_monad. destruct (re_search w _ _); intros [= _ <-]; auto. }
  destruct (String.eqb_spec function "path") as [->|_].
  { step_monad. destruct (re_search w _ _); intros [= _ <-]; auto. }
  destruct (String.eqb_spec function "mime") as [->|_].
  { unfold _get_mimetype. step_monad.
    destruct (_mimetype s) as [[|c m]|];
      [destruct (spawn_file w file0) as [m|e]; [simpl|discriminate]| |
       destruct (spawn_file w file0) as [m|e]; [simpl|discriminate]];
      destruct (re_search w _ _); intros [= _ <-]; auto. }
  destruct (String.eqb_spec function "has") as [->|_].
  { intros [= _ <-]; auto. }
  destruct (String.eqb_spec function "terminal") as [->|_].
  { intros [= _ <-]; auto. }
  destruct (String.eqb_spec function "number") as [->|Hnumber].
  { step_monad. destruct (Str.isdigit argument); intros [= _ <-]; auto. }
  destruct (String.eqb_spec function "label") as [->|Hlabel].
  { step_monad. destruct (label_given label); intros [= _ <-]; auto. }
  destruct (String.eqb_spec function "flag") as [->|Hflag].
  { step_monad. intros [= _ <-]; auto. }
  simpl.
  destruct (String.eqb function "X"); [intros [= _ <-]; auto|].
  destruct (String.eqb function "else"); intros [= _ <-]; auto.
Qed.

#[local] Arguments _eval_condition2 : simpl never.
#[local] Arguments _eval_condition : simpl never.

Lemma eval_condition_scratch (w : World) (c : condition)
    (file0 : string) (files : list string) (label : option string)
    (s s' : State) (v : pyval) :
  _eval_condition w c (file0 :: files) label s = Ok (v, s') ->
  _app_flags s' =
    (if String.eqb (inner_function c) "flag" then argument_of c
     else _app_flags s) /\
  _app_label s' =
    (if String.eqb (inner_function c) "label" then Some (argument_of c)
     else _app_label s) /\
  _skip s' =
    (if String.eqb (inner_function c) "number" && Str.isdigit (argument_of c)
     then Some (Str.int (argument_of c)) else _skip s).
Proof.
  destruct c as [|c0 rest]; [cbv [_eval_condition ret]; intros [= _ <-]; auto|].
  unfold _eval_condition, inner_function.
  destruct (Str.startswith "!" c0).
  - unfold bind, ret. simpl.
    destruct (_eval_condition2 w (drop_first c0 :: rest) (file0 :: files) label s)
      as [[v0 s0]|e] eqn:E; simpl; [|discriminate].
    intros [= _ <-]. apply (eval_condition2_scratch _ _ _ _ _ _ _ _ _ E).
  - apply eval_condition2_scratch.
Qed.

Lemma eval_tests_scratch (w : World) (tests : list condition)
    (file0 : string) (files : list string) (s s' : State) :
  eval_tests w tests (file0 :: files) s = Ok (true, s') ->
  _app_flags s' =
    foldl (fun acc c =>
             if String.eqb (inner_function c) "flag" then argument_of c else acc)
          (_app_flags s) tests /\
  _app_label s' =
    foldl (fun acc c =>
             if String.eqb (inner_function c) "label"
             then Some (argument_of c) else acc)
          (_app_label s) tests /\
  _skip s' =
    foldl (fun acc c =>
             if String.eqb (inner_function c) "number"
                && Str.isdigit (argument_of c)
             then Some (Str.int (argument_of c)) else acc)
          (_skip s) tests.
Proof.
  revert s. induction tests as [|c tests IH]; intros s; simpl.
  - intros [= <-]. auto.
  - unfold bind.
    destruct (_eval_condition w c (file0 :: files) None s) as [[v s1]|e] eqn:E;
      simpl; [|discriminate].
    destruct (truthy v); [|discriminate].
    intros H. apply IH in H as (Hf & Hl & Hk).
    apply eval_condition_scratch in E as (Ef & El & Ek).
    rewrite Hf, Hl, Hk, Ef, El, Ek. auto.
Qed.

(** X10: With files to look at, the tuple a rule yields is fixed by the text
    of the rule and the running count, when the arguments of its
    [number] conditions are ASCII text of at most 4300 characters: its
    flags and its label are the arguments of the last [flag] and the
    last [label] condition (the empty string and [None] without one),
    and its index is the argument of the last [number] condition with a
    string of the digits [0-9], else one more than the count.  Nothing
    is left over from the rules tried before. *)
Theorem yielded_tuple_from_rule_text (w : World) (file0 : string)
    (files : list string) (count : Z) (cmd : string) (tests : list condition)
    (s s' : State) (m : match_) :
  number_arguments_plain tests = true ->
  try_rule w (file0 :: files) count (cmd, tests) s = Ok (Some m, s') ->
  m = (match skip_of tests with Some n => n | None => (count + 1)%Z end,
       cmd, label_of tests, flags_of tests).
Proof.
  intros _ H. pose proof (try_rule_some _ _ _ _ _ _ _ _ H) as ->.
  revert H. unfold try_rule, bind, modify, gets, ret.
  destruct (eval_tests w tests (file0 :: files) _) as [[[|] s1]|e] eqn:E;
    [|discriminate|discriminate].
  intros [= Hs]. subst s1. apply eval_tests_scratch in E as (Hf & Hl & Hk).
  simpl in *. unfold skip_of, label_of, flags_of. now rewrite Hf, Hl, Hk.
Qed.

Lemma yielded_tuple_from_rule_text_witness :
  number_arguments_plain (snd rule_numbered) = true /\
  exists s' m,
    try_rule world0 ["a"] (-1) rule_numbered state0 = Ok (Some m, s') /\
    m = (7%Z, "less", Some "pager", "f").
Proof.
  split; [reflexivity|].
  eexists _, _. split; [vm_compute; reflexivity|].
  apply (yielded_tuple_from_rule_text world0 "a" [] (-1) "less"
           (snd rule_numbered) state0
           (set_skip (Some 7%Z)
              (set_app_label (Some "pager") (set_app_flags "f" state0)))).
  - reflexivity.
  - vm_compute. reflexivity.
Defined.

Lemma eval_condition_effect (w : World) (c : condition)
    (files : list string) (label : option string) (s s' : State) (v : pyval) :
  _eval_condition w c files label s = Ok (v, s') ->
  s' = s \/
  (inner_function c = "mime" /\ exists m, s' = set_mimetype (Some m) s) \/
  (inner_function c = "number" /\
     s' = set_skip (Some (Str.int (argument_of c))) s) \/
  (inner_function c = "label" /\ s' = set_app_label (Some (argument_of c)) s) \/
  (inner_function c = "flag" /\ s' = set_app_flags (argument_of c) s).
Proof.
  destruct c as [|c0 rest]; [cbv [_eval_condition ret]; intros [= _ <-]; auto|].
  unfold _eval_condition, inner_function.
  destruct (Str.startswith "!" c0).
  - unfold bind, ret. simpl.
    destruct (_eval_condition2 w (drop_first c0 :: rest) files label s)
      as [[v0 s0]|e] eqn:E; simpl; [|discriminate].
    intros [= _ <-]. apply (eval_condition2_effect _ _ _ _ _ _ _ _ E).
  - apply eval_condition2_effect.
Qed.

(** X5: The assignments one condition can make: none at all, unless its
    function (behind a [!], if there is one) is [mime], which may fill
    the cache of the MIME type, [number], [label] or [flag], which
    assign the skip-target, the label and the flags from the argument.
    A condition never logs, never touches the environment and never
    changes the rules. *)
Theorem eval_condition_assignments (w : World) (c : condition)
    (files : list string) (label : option string) (s s' : State) (v : pyval) :
  _eval_condition w c files label s = Ok (v, s') ->
  s' = s \/
  (inner_function c = "mime" /\ exists m, s' = set_mimetype (Some m) s) \/
  (inner_function c = "number" /\
     s' = set_skip (Some (Str.int (argument_of c))) s) \/
  (inner_function c = "label" /\ s' = set_app_label (Some (argument_of c)) s) \/
  (inner_function c = "flag" /\ s' = set_app_flags (argument_of c) s).
Proof. apply eval_condition_effect. Qed.

Lemma eval_condition_assignments_witness :
  _eval_condition world0 ["!flag"; "f"] ["a"] None state0
    = Ok (PyBool false, set_app_flags "f" state0) /\
  (set_app_flags "f" state0 = state0 \/
   (inner_function ["!flag"; "f"] = "mime" /\
      exists m, set_app_flags "f" state0 = set_mimetype (Some m) state0) \/
   (inner_function ["!flag"; "f"] = "number" /\
      set_app_flags "f" state0
        = set_skip (Some (Str.int (argument_of ["!flag"; "f"]))) state0) \/
   (inner_function ["!flag"; "f"] = "label" /\
      set_app_flags "f" state0
        = set_app_label (Some (argument_of ["!flag"; "f"])) state0) \/
   (inner_function ["!flag"; "f"] = "flag" /\
      set_app_flags "f" state0
        = set_app_flags (argument_of ["!flag"; "f"]) state0)).
Proof.
  split; [reflexivity|].
  apply (eval_condition_assignments world0 ["!flag"; "f"] ["a"] None state0
           (set_app_flags "f" state0) (PyBool false)).
  reflexivity.
Defined.








(** *** The generator on special inputs *)

Lemma eval_condition_without_files (w : World) (c : condition)
    (label : option string) (s : State) :
  _eval_condition w c [] label s = Ok (PyBool (holds_without_files c), s).
Proof.
  destruct c as [|c0 rest]; [reflexivity|].
  unfold _eval_condition, holds_without_files.
  now destruct (Str.startswith "!" c0).
Qed.

Lemma eval_tests_without_files (w : World) (tests : list condition) (s : State) :
  eval_tests w tests [] s = Ok (forallb holds_without_files tests, s).
Proof.
  induction tests as [|c tests IH]; simpl; [reflexivity|].
  unfold bind. rewrite eval_condition_without_files. simpl.
  now destruct (holds_without_files c).
Qed.

(** X12: Without files the generator does not consult anything outside: it
    ends normally and yields exactly the rules whose conditions are all
    empty or start with [!], numbered consecutively, each without label
    and without flags. *)
Theorem list_commands_without_files (w : World) (mimetype : option string)
    (rs : list rule) (s : State) :
  rules s = Some rs ->
  map fst (list_commands w [] mimetype s).1 =
    numbered_from 0
      (List.filter (fun r => forallb holds_without_files r.2) rs) /\
  exists s', (list_commands w [] mimetype s).2 = Ok s'.
Proof.
  intros Hr.
  unfold list_commands, list_commands_start, bind, modify, gets, ret. simpl.
  rewrite Hr. generalize (set_mimetype mimetype s). clear Hr s.
  change 0%Z with (-1 + 1)%Z. generalize (-1)%Z.
  induction rs as [|[cmd tests] rest IH]; intros count s; simpl.
  - eauto.
  - unfold try_rule, bind, modify, gets, ret.
    rewrite eval_tests_without_files.
    destruct (forallb holds_without_files tests); simpl.
    + specialize (IH (count + 1)%Z
        (set_app_label None (set_app_flags "" (set_skip None s)))).
      unfold match_count at 1 2. simpl.
      destruct (list_commands_loop w [] (count + 1) rest _) as [ms out].
      simpl in *. destruct IH as [-> IH]. auto.
    + apply IH.
Qed.

Lemma list_commands_without_files_witness :
  rules (set_rules (Some [("a", [["else"]]); ("b", [[]]); ("c", [["!ext"; "x"]])])
           state0)
    = Some [("a", [["else"]]); ("b", [[]]); ("c", [["!ext"; "x"]])] /\
  map fst (list_commands world0 [] None
             (set_rules (Some [("a", [["else"]]); ("b", [[]]);
                               ("c", [["!ext"; "x"]])]) state0)).1
    = [(0%Z, "b", None, ""); (1%Z, "c", None, "")].
Proof.
  split; [reflexivity|].
  apply (list_commands_without_files world0 None
           [("a", [["else"]]); ("b", [[]]); ("c", [["!ext"; "x"]])]).
  reflexivity.
Defined.



(** *** The driver and the generator *)

Lemma execute_loop_select (w : World) (files : list string) (number : Z)
    (label : option string) (flags : option string) (found : bool)
    (count : Z) (rs : list rule) (s : State) :
  execute_loop w files number label flags found count rs s =
  match select label number found flags
          (list_commands_loop w files count rs s).1 with
  | (Some (m, sm), found', _) =>
      bind (_build_command w files (hook_command_preprocessing (match_cmd m))
                           (Some (match_flags m)))
           (fun command => ret (Some command, found')) sm
  | (None, found', flags') =>
      match (list_commands_loop w files count rs s).2 with
      | Ok s_end => execute_else w files label flags' found' s_end
      | Raise e => Raise e
      end
  end.
Proof.
  revert flags found count s.
  induction rs as [|r rest IH]; intros flags found count s; simpl;
    [reflexivity|].
  unfold bind at 1.
  destruct (try_rule w files count r s) as [[[[[[c cmd] lbl] fl]|] s1]|e];
    simpl; auto.
  specialize (IH (Some fl) true c s1).
  unfold match_count, match_label; simpl.
  destruct (list_commands_loop w files c rest s1) as [ms out]. simpl in *.
  change (match_count (c, cmd, lbl, fl)) with c.
  change (match_label (c, cmd, lbl, fl)) with lbl.
  destruct (selected label number c lbl); [reflexivity|exact IH].
Qed.

(** X14: The loop of [execute] consumes the generator lazily: it builds the
    command of the first tuple it selects, in the state the instance has
    at the [yield] of that tuple, and the rules after it are not
    evaluated any more, so that what they would raise is not raised.
    Only when no tuple is selected does the end of the generator count:
    its exception is passed on, or the [else] branch runs in its final
    state. *)
Theorem execute_loop_lazy (w : World) (files : list string) (number : Z)
    (label : option string) (flags : option string) (found : bool)
    (count : Z) (rs : list rule) (s : State) :
  execute_loop w files number label flags found count rs s =
  match select label number found flags
          (list_commands_loop w files count rs s).1 with
  | (Some (m, sm), found', _) =>
      bind (_build_command w files (hook_command_preprocessing (match_cmd m))
                           (Some (match_flags m)))
           (fun command => ret (Some command, found')) sm
  | (None, found', flags') =>
      match (list_commands_loop w files count rs s).2 with
      | Ok s_end => execute_else w files label flags' found' s_end
      | Raise e => Raise e
      end
  end.
Proof. apply execute_loop_select. Qed.

(** *** The command builder *)

(** X8: [_apply_flags] fails in one way only: with [KeyError('TERM')], and
    exactly when the flag [t] is given while the environment has neither
    [TERMCMD] nor [TERM]. *)
Theorem apply_flags_raises_iff (w : World) (action flags : string) (s : State) :
  (forall e, _apply_flags w action flags s = Raise e -> e = KeyError "TERM") /\
  (_apply_flags w action flags s = Raise (KeyError "TERM") <->
   Str.mem "t" flags = true /\ environ s !! "TERMCMD" = None /\
   environ s !! "TERM" = None).
Proof.
  unfold _apply_flags, hook_logger. step_monad.
  destruct (Str.mem "t" flags); simpl.
  - destruct (environ s !! "TERMCMD") as [v|]; simpl.
    + split; [discriminate|]. split; [discriminate|]. now intros (_ & ? & _).
    + destruct (environ s !! "TERM") as [term|]; simpl.
      * case_bool_decide; simpl;
          (split; [discriminate|]; split; [discriminate|]; now intros (_ & _ & ?)).
      * split; [now intros e [= <-]|]. tauto.
  - split; [discriminate|]. split; [discriminate|]. now intros (? & _).
Qed.

Lemma apply_flags_raises_iff_witness :
  (Str.mem "t" "ft" = true /\ environ state0 !! "TERMCMD" = None /\
   environ state0 !! "TERM" = None) /\
  _apply_flags world0 "vi" "ft" state0 = Raise (KeyError "TERM").
Proof.
  split; [repeat split|].
  apply (proj2 (apply_flags_raises_iff world0 "vi" "ft" state0)).
  repeat split.
Defined.

Lemma apply_flags_effect (w : World) (action flags : string)
    (s s' : State) (a : string) :
  _apply_flags w action flags s = Ok (a, s') ->
  (Str.mem "t" flags = false -> s' = s) /\
  (Str.mem "t" flags = true -> is_Some (environ s' !! "TERMCMD")) /\
  (is_Some (environ s !! "TERMCMD") -> s' = s) /\
  (forall k, k <> "TERMCMD" -> environ s' !! k = environ s !! k) /\
  (stderr s' = stderr s \/ stderr s' = (stderr s ++ [terminal_warning])%list) /\
  rules s' = rules s /\ spawned s' = spawned s /\
  _app_flags s' = _app_flags s.
Proof.
  unfold _apply_flags, hook_logger, terminal_warning. step_monad.
  destruct (Str.mem "t" flags); simpl.
  - destruct (environ s !! "TERMCMD") as [v|] eqn:Ecmd; simpl.
    + intros [= _ <-]. rewrite Ecmd. repeat split; eauto.
    + destruct (environ s !! "TERM") as [term|]; simpl; [|discriminate].
      case_bool_decide; simpl; intros [= _ <-]; simpl;
        (repeat split; auto;
         [discriminate
         |intros _; rewrite lookup_insert_eq; eauto
         |now intros [? ?]
         |intros k Hk; now rewrite lookup_insert_ne]).
  - intros [= _ <-]. repeat split; auto. discriminate.
Qed.

(** X9: What a successful [_apply_flags] does to the process: without the
    flag [t] nothing; with it, [TERMCMD] is defined afterwards, a
    [TERMCMD] that was defined before is kept together with the whole
    state, no other variable changes, and at most the warning about the
    terminal is logged.  Rules and spawned commands are never touched. *)
Theorem apply_flags_environment (w : World) (action flags : string)
    (s s' : State) (a : string) :
  _apply_flags w action flags s = Ok (a, s') ->
  (Str.mem "t" flags = false -> s' = s) /\
  (Str.mem "t" flags = true -> is_Some (environ s' !! "TERMCMD")) /\
  (is_Some (environ s !! "TERMCMD") -> s' = s) /\
  (forall k, k <> "TERMCMD" -> environ s' !! k = environ s !! k) /\
  (stderr s' = stderr s \/ stderr s' = (stderr s ++ [terminal_warning])%list) /\
  rules s' = rules s /\ spawned s' = spawned s /\
  _app_flags s' = _app_flags s.
Proof. apply apply_flags_effect. Qed.

Lemma apply_flags_environment_witness :
  exists a s',
    _apply_flags world0 "vi" "t" (set_environ {["TERM" := "rxvt-unicode-256color"]} state0)
      = Ok (a, s') /\
    environ s' !! "TERMCMD" = Some "urxvt" /\
    environ s' !! "TERM" = Some "rxvt-unicode-256color" /\
    stderr s' = [terminal_warning].
Proof.
  eexists _, _. split; [vm_compute; reflexivity|].
  split; [reflexivity|]. split; [|reflexivity].
  match goal with
  | |- environ ?s' !! _ = _ =>
      assert (H : _apply_flags world0 "vi" "t"
                    (set_environ {["TERM" := "rxvt-unicode-256color"]} state0)
                  = Ok ("$TERMCMD -e vi", s')) by (vm_compute; reflexivity);
      destruct (apply_flags_environment _ _ _ _ _ _ H) as (_ & _ & _ & Hk & _);
      rewrite Hk by discriminate
  end.
  reflexivity.
Defined.

Lemma append_empty_r (s : string) : s ++ "" = s.
Proof.
  induction s as [|c s IH]; [reflexivity|].
  change (String c (s ++ "") = String c s). now rewrite IH.
Qed.



Lemma execute_unfold (w : World) (files : list string) (number : Z)
    (label : option string) (flags : option string)
    (mimetype : option string) :
  execute w files number label flags mimetype =
  (let* gen := list_commands_start mimetype in
   let* res := execute_loop w files number label flags false gen.1 gen.2 in
   execute_finish label number res).
Proof. reflexivity. Qed.





Lemma execute_loop_number_unused (w : World) (files : list string)
    (n1 n2 : Z) (label : option string) (flags : option string) (found : bool)
    (count : Z) (rs : list rule) (s : State) :
  label_given label = true ->
  execute_loop w files n1 label flags found count rs s =
  execute_loop w files n2 label flags found count rs s.
Proof.
  intros Hl. revert flags found count s.
  induction rs as [|r rest IH]; intros flags found count s; simpl;
    [reflexivity|].
  unfold bind.
  destruct (try_rule w files count r s) as [[[[[[c cmd] lbl] fl]|] s1]|e]; auto.
  unfold selected. rewrite Hl. destruct (bool_decide (label = lbl)); auto.
Qed.

(** X17: With a label, the number passed to [execute] plays no part: the
    rule is chosen by its label alone, and so are the messages. *)
Theorem execute_number_unused_with_label (w : World) (files : list string)
    (n1 n2 : Z) (label : option string) (flags : option string)
    (mimetype : option string) (s : State) :
  label_given label = true ->
  execute w files n1 label flags mimetype s =
  execute w files n2 label flags mimetype s.
Proof.
  intros Hl. rewrite !execute_unfold. unfold bind.
  destruct (list_commands_start mimetype s) as [[[count rs] s0]|e]; [|reflexivity].
  simpl. rewrite (execute_loop_number_unused w files n1 n2 label) by exact Hl.
  destruct (execute_loop w files n2 label flags false count rs s0)
    as [[[command found] s1]|e]; [|reflexivity].
  unfold execute_finish. simpl. now rewrite Hl.
Qed.

Lemma execute_number_unused_with_label_witness :
  label_given (Some "editor") = true /\
  execute (world_with_config "rifle.conf" config_three_rules) ["a"] 0
    (Some "editor") None None
    (set_rules (Some [("editor", [["else"]; ["label"; "editor"]])]) state0) =
  execute (world_with_config "rifle.conf" config_three_rules) ["a"] 5
    (Some "editor") None None
    (set_rules (Some [("editor", [["else"]; ["label"; "editor"]])]) state0).
Proof.
  split; [reflexivity|].
  apply (execute_number_unused_with_label _ ["a"] 0 5 (Some "editor")).
  reflexivity.
Defined.

(** X18: Without a label, when the generator ends normally and no tuple
    carries the number asked for, [execute] spawns nothing and logs one
    line: [No action found.] when nothing was yielded at all, and
    [Method number N is undefined.] otherwise. *)
Theorem execute_number_not_found (w : World) (files : list string)
    (number : Z) (label : option string) (flags : option string)
    (mimetype : option string) (s s_end : State) (ms : list (match_ * State)) :
  label_given label = false ->
  list_commands w files mimetype s = (ms, Ok s_end) ->
  Forall (fun y => match_count y.1 <> number) ms ->
  execute w files number label flags mimetype s =
  let msg := match ms with
             | [] => "No action found."
             | _ => "Method number " ++ Str.of_Z number ++ " is undefined."
             end in
  Ok (tt, set_stderr (stderr s_end ++ [msg])%list s_end).
Proof.
  intros Hl. rewrite execute_unfold. unfold list_commands.
  unfold bind at 1.
  destruct (list_commands_start mimetype s) as [[[count rs] s0]|e];
    [|discriminate].
  simpl. intros Hrun Hnum. unfold bind. rewrite execute_loop_select, Hrun. simpl.
  assert (Hsel : forall found fl,
    exists fl', select label number found fl ms
      = (None, found || negb (bool_decide (ms = [])), fl')).
  { clear Hrun. induction Hnum as [|[m sm] ms Hm _ IH]; intros found fl; simpl.
    - exists fl. now rewrite orb_false_r.
    - unfold selected. rewrite Hl. simpl in Hm.
      rewrite bool_decide_eq_false_2 by exact Hm.
      destruct (IH true (Some (match_flags m))) as [fl' ->].
      exists fl'. now rewrite orb_true_r. }
  destruct (Hsel false flags) as [fl' ->]. simpl.
  assert (He : execute_else w files label fl'
                 (negb (bool_decide (ms = []))) s_end
               = Ok ((None, negb (bool_decide (ms = []))), s_end)).
  { unfold execute_else. destruct label as [[|c l]|]; try reflexivity.
    discriminate Hl. }
  rewrite He. unfold execute_finish, hook_logger, modify. simpl. rewrite Hl.
  destruct ms; reflexivity.
Qed.

Lemma execute_number_not_found_witness :
  let w := world_with_config "rifle.conf" config_feh in
  let s := set_rules (Some [("feh", [["ext"; "jpg"]])]) state0 in
  execute w ["a.jpg"] 1 None None None s =
  Ok (tt, set_stderr ["Method number 1 is undefined."] (set_app_label None s)).
Proof.
  intros w s.
  apply (execute_number_not_found w ["a.jpg"] 1 None None None s
           (set_app_label None s) [((0%Z, "feh", None, ""), set_app_label None s)]).
  - reflexivity.
  - vm_compute. reflexivity.
  - repeat constructor. discriminate.
Defined.

(** *** Trimming *)

Lemma lstrip_fixed (s : string) :
  match s with
  | EmptyString => True
  | String c _ => Str.is_space c = false
  end ->
  Str.lstrip s = s.
Proof. destruct s as [|c s]; simpl; [reflexivity|]. now intros ->. Qed.

Lemma lstrip_head (s : string) :
  match Str.lstrip s with
  | EmptyString => True
  | String c _ => Str.is_space c = false
  end.
Proof.
  induction s as [|c s IH]; simpl; [exact I|].
  destruct (Str.is_space c) eqn:E; [exact IH|exact E].
Qed.

Lemma rstrip_head (s : string) :
  match s with
  | EmptyString => True
  | String c _ => Str.is_space c = false
  end ->
  match Str.rstrip s with
  | EmptyString => True
  | String c _ => Str.is_space c = false
  end.
Proof.
  destruct s as [|c s]; simpl; [auto|]. intros Hc.
  destruct (Str.rstrip s); [rewrite Hc|]; exact Hc.
Qed.

Lemma rstrip_idempotent (s : string) : Str.rstrip (Str.rstrip s) = Str.rstrip s.
Proof.
  induction s as [|c s IH]; simpl; [reflexivity|].
  destruct (Str.rstrip s) as [|d r] eqn:E.
  - destruct (Str.is_space c) eqn:Hc; simpl; [reflexivity|now rewrite Hc].
  - change (Str.rstrip (String c (String d r))) with
      (match Str.rstrip (String d r) with
       | EmptyString => if Str.is_space c then EmptyString else String c EmptyString
       | r' => String c r'
       end).
    now rewrite IH.
Qed.

(** [s.strip().strip() == s.strip()] *)
Lemma strip_idempotent (s : string) : Str.strip (Str.strip s) = Str.strip s.
Proof.
  unfold Str.strip.
  rewrite (lstrip_fixed (Str.rstrip (Str.lstrip s))).
  - apply rstrip_idempotent.
  - apply rstrip_head, lstrip_head.
Qed.

Lemma strip_newline (t : string) : Str.strip (t ++ newline) = Str.strip t.
Proof.
  unfold Str.strip.
  assert (H : Str.lstrip (t ++ newline) = Str.lstrip t ++ newline \/
              (Str.lstrip (t ++ newline) = "" /\ Str.lstrip t = "")).
  { induction t as [|c t IH]; [now right|].
    change (String c t ++ newline) with (String c (t ++ newline)). simpl.
    destruct (Str.is_space c); [exact IH|now left]. }
  destruct H as [->|[-> ->]]; [apply rstrip_newline|reflexivity].
Qed.

(** *** The tag store: what is written and what is read back *)

Section TagsMore.
Import Tags.

Lemma one_line_spec (t : string) :
  one_line t = true -> Str.mem "010" t = false /\ Str.mem "013" t = false.
Proof.
  unfold one_line. intros [H1 H2]%andb_prop.
  apply negb_true_iff in H1, H2. auto.
Qed.

Lemma parse_written_stripped (l : list string) (acc : gset string) :
  Forall (fun t => one_line t = true) l ->
  foldl (fun result line => result ∪ {[Str.strip line]}) acc
    (Str.readlines (foldr (fun line written => line ++ newline ++ written) "" l))
  = acc ∪ list_to_set (Str.strip <$> l).
Proof.
  intros H. revert acc. induction H as [|t l Ht _ IH]; intros acc; simpl.
  - set_solver.
  - apply one_line_spec in Ht as (Hn & Hr).
    unfold Str.readlines, Str.lines in *.
    rewrite translate_newlines_line, lines_go_line by assumption.
    simpl. rewrite IH, strip_newline. set_solver.
Qed.

(** X20: Reading back what [dump] wrote: for tokens of ASCII text without
    line breaks, a fresh instance holds the tokens stripped of the white
    space around them, whatever order the set was written in.  A token
    that differs from its stripped form is therefore stored under
    another name. *)
Theorem stored_tokens_are_stripped (o : SetOrder) (d : bool) (T : gset string) :
  set_Forall (fun t => isascii t = true) T ->
  set_Forall (fun t => one_line t = true) T ->
  stored (mkFs d (Some (_compile o T))) = Some (set_map Str.strip T).
Proof.
  intros _ H. unfold stored, __init__, sync. simpl.
  rewrite andb_false_r. simpl. f_equal.
  unfold _parse, _compile. rewrite parse_written_stripped.
  - unfold set_map.
    rewrite (list_to_set_perm_L _ (Str.strip <$> elements T)).
    + set_solver.
    + apply fmap_Permutation, set_iter_perm.
  - apply Forall_forall. intros t Ht. apply H.
    rewrite (set_iter_perm o T) in Ht. now apply elem_of_elements.
Qed.

Lemma stored_tokens_are_stripped_witness :
  set_Forall (fun t => isascii t = true) ({[" a"; "b "]} : gset string) /\
  set_Forall (fun t => one_line t = true) ({[" a"; "b "]} : gset string) /\
  stored (mkFs true (Some (_compile elements_order {[" a"; "b "]})))
    = Some {["a"; "b"]}.
Proof.
  assert (Ha : set_Forall (fun t => isascii t = true)
                 ({[" a"; "b "]} : gset string)).
  { intros x [Hx|Hx]%elem_of_union; apply elem_of_singleton in Hx; now subst. }
  assert (H : set_Forall (fun t => one_line t = true)
                ({[" a"; "b "]} : gset string)).
  { intros x [Hx|Hx]%elem_of_union; apply elem_of_singleton in Hx; now subst. }
  split; [exact Ha|]. split; [exact H|].
  rewrite (stored_tokens_are_stripped elements_order true _ Ha H).
  reflexivity.
Defined.

Lemma readlines_strip_fixed (lines : list string) (acc : gset string) :
  set_Forall (fun t => Str.strip t = t) acc ->
  set_Forall (fun t => Str.strip t = t)
    (foldl (fun result line => result ∪ {[Str.strip line]}) acc lines).
Proof.
  revert acc. induction lines as [|line lines IH]; intros acc Hacc; simpl;
    [exact Hacc|].
  apply IH. intros t [Ht|Ht]%elem_of_union; [now apply Hacc|].
  apply elem_of_singleton in Ht. subst t. apply strip_idempotent.
Qed.

(** X21: Whatever the file holds, every token an instance reads from it is
    free of white space at both ends: a token passed to [add] with such
    white space is not a member any more once the set is read again. *)
Theorem parsed_tokens_trimmed (content : string) :
  set_Forall (fun t => Str.strip t = t) (_parse content).
Proof.
  unfold _parse. apply readlines_strip_fixed. intros t Ht. set_solver.
Qed.

Lemma add_items_spec (items : list string) (f : string) (T : gset string) :
  add_items items (mkTags f (Some T))
    = Ok (mkTags f (Some (T ∪ list_to_set items))).
Proof.
  revert T. induction items as [|item items IH]; intros T; simpl.
  - do 3 f_equal. set_solver.
  - rewrite IH. do 3 f_equal. set_solver.
Qed.

Lemma remove_items_spec (items : list string) (f : string) (T : gset string) :
  remove_items items (mkTags f (Some T))
    = Ok (mkTags f (Some (T ∖ list_to_set items))).
Proof.
  revert T. induction items as [|item items IH]; intros T; simpl.
  - do 3 f_equal. set_solver.
  - rewrite IH. do 3 f_equal. set_solver.
Qed.

(** X22: Membership after [add] and [remove], for a file of ASCII text
    that can be read and items of ASCII text: both methods return, every
    item passed to [add] is in the instance afterwards, every item
    passed to [remove] is not (an item that was not there is passed
    over), and the instance holds exactly what the file held when the
    method was entered, with the items joined or taken away.  What the
    instance held before plays no part. *)
Theorem add_remove_membership (o : SetOrder) (items : list string)
    (d : bool) (c : string) (self : t) :
  isascii c = true ->
  Forall (fun item => isascii item = true) items ->
  (exists fs' self',
      add o items (mkFs d (Some c)) self = Ok (fs', self') /\
      tags self' = Some (_parse c ∪ list_to_set items) /\
      forall item, item ∈ items -> __contains__ self' item = Ok true) /\
  (exists fs' self',
      remove o items (mkFs d (Some c)) self = Ok (fs', self') /\
      tags self' = Some (_parse c ∖ list_to_set items) /\
      forall item, item ∈ items -> __contains__ self' item = Ok false).
Proof.
  intros _ _. split.
  - unfold add, sync. simpl. rewrite add_items_spec.
    unfold then_dump, dump. simpl. rewrite orb_true_r.
    do 2 eexists. split; [reflexivity|]. simpl. repeat split.
    intros item Hin. unfold __contains__. simpl.
    rewrite bool_decide_eq_true_2; [reflexivity|set_solver].
  - unfold remove, sync. simpl. rewrite remove_items_spec.
    unfold then_dump, dump. simpl. rewrite orb_true_r.
    do 2 eexists. split; [reflexivity|]. simpl. repeat split.
    intros item Hin. unfold __contains__. simpl.
    rewrite bool_decide_eq_false_2; [reflexivity|set_solver].
Qed.

Lemma add_remove_membership_witness :
  isascii "" = true /\
  Forall (fun item => isascii item = true) ["a"; "b"] /\
  "a" ∈ ["a"; "b"] /\
  exists fs' self',
    add elements_order ["a"; "b"] empty_file (mkTags "tags" None)
      = Ok (fs', self') /\
    __contains__ self' "a" = Ok true.
Proof.
  assert (Hi : Forall (fun item => isascii item = true) ["a"; "b"])
    by (repeat constructor).
  split; [reflexivity|]. split; [exact Hi|]. split; [set_solver|].
  destruct (proj1 (add_remove_membership elements_order ["a"; "b"] true ""
                     (mkTags "tags" None) eq_refl Hi))
    as (fs' & self' & Hadd & _ & Hin).
  exists fs', self'. split; [exact Hadd|]. apply Hin. set_solver.
Defined.

(** X24: A store whose file cannot be opened and whose directory does not
    exist: the constructor creates nothing and leaves the attribute
    [tags] unassigned; a later call of [add], [remove] or [toggle] with
    at least one item then raises [AttributeError], while a call without
    items passes over both failures of [open] and changes nothing. *)
Theorem tags_without_directory (o : SetOrder) (filename : string)
    (item : string) (items : list string) :
  let fs := mkFs false None in
  let self := mkTags filename None in
  __init__ filename fs = (fs, self) /\
  add o (item :: items) fs self = Raise (AttributeError "tags") /\
  remove o (item :: items) fs self = Raise (AttributeError "tags") /\
  toggle o (item :: items) fs self = Raise (AttributeError "tags") /\
  add o [] fs self = Ok (fs, self) /\
  remove o [] fs self = Ok (fs, self) /\
  toggle o [] fs self = Ok (fs, self).
Proof. repeat split. Qed.

End TagsMore.

(** X23: Toggling one token twice: in a store whose tokens are ASCII text
    free of surrounding white space and of line breaks, the first
    [toggle] of such a token flips its membership in the stored set and
    the second brings the stored set back, whatever orders the set is
    written in. *)
Theorem toggle_is_involution (o o1 o2 : Tags.SetOrder) (d : bool)
    (T : gset string) (x : string) (self : Tags.t) :
  set_Forall (fun t => isascii t = true) T ->
  isascii x = true ->
  set_Forall (fun t => Tags.clean t = true) T ->
  Tags.clean x = true ->
  exists fs1 t1 fs2 t2 T1,
    Tags.toggle o1 [x] (Tags.mkFs d (Some (Tags._compile o T))) self
      = Ok (fs1, t1) /\
    Tags.stored fs1 = Some T1 /\ (x ∈ T1 <-> x ∉ T) /\
    Tags.toggle o2 [x] fs1 t1 = Ok (fs2, t2) /\
    Tags.stored fs2 = Some T.
Proof. intros _ _. apply toggle_twice_restores. Qed.

Lemma toggle_is_involution_witness :
  set_Forall (fun t => isascii t = true) ({["b"]} : gset string) /\
  isascii "a" = true /\
  set_Forall (fun t => Tags.clean t = true) ({["b"]} : gset string) /\
  Tags.clean "a" = true /\
  exists fs1 t1 fs2 t2 T1,
    Tags.toggle Tags.elements_order ["a"]
      (Tags.mkFs true (Some (Tags._compile Tags.elements_order {["b"]})))
      (Tags.mkTags "tags" None) = Ok (fs1, t1) /\
    Tags.stored fs1 = Some T1 /\ ("a" ∈ T1 <-> "a" ∉ ({["b"]} : gset string)) /\
    Tags.toggle Tags.elements_order ["a"] fs1 t1 = Ok (fs2, t2) /\
    Tags.stored fs2 = Some {["b"]}.
Proof.
  assert (Ha : set_Forall (fun t => isascii t = true) ({["b"]} : gset string)).
  { intros x Hx. apply elem_of_singleton in Hx. now subst. }
  split; [exact Ha|]. split; [reflexivity|].
  split; [apply clean_b|]. split; [reflexivity|].
  apply (toggle_is_involution Tags.elements_order Tags.elements_order
           Tags.elements_order true {["b"]} "a" (Tags.mkTags "tags" None)).
  - exact Ha.
  - reflexivity.
  - apply clean_b.
  - reflexivity.
Defined.

(** *** The loader on any file *)

Lemma diagnostics_of_length (cf : string) (n : nat) (lines : list string) :
  length (diagnostics_of cf n lines) = length (List.filter malformed lines).
Proof.
  revert n. induction lines as [|line rest IH]; intros n; simpl; [reflexivity|].
  unfold malformed at 1.
  destruct (skipped line); simpl; [apply IH|].
  pose proof (parse_line_cases (Str.strip line)) as Hc.
  destruct (parse_line (Str.strip line)) as [e|r].
  - destruct Hc as [_ ->]. simpl. now rewrite IH.
  - rewrite Hc. simpl. apply IH.
Qed.

(** X2: Loading never fails on a file of ASCII text that can be opened:
    whatever such a file holds, [reload_config] ends normally, replaces
    the rules by one rule for every line that holds the delimiter and is
    not skipped, in the order of the lines, and logs one line for every
    other line that is not skipped.  The rules held before play no part.
    A file that cannot be opened raises. *)
Theorem reload_config_total (w : World) (config_file_arg : option string)
    (s : State) :
  let cf := default (config_file s) config_file_arg in
  (open_read w cf = None ->
   reload_config w config_file_arg s = Raise (IOError cf)) /\
  (forall content : string,
     open_read w cf = Some content ->
     isascii content = true ->
     let lines := Str.readlines content in
     exists s' logged,
       reload_config w config_file_arg s = Ok (tt, s') /\
       rules s' = Some (rules_of lines) /\
       length (rules_of lines) = length (List.filter well_formed lines) /\
       stderr s' = (stderr s ++ logged)%list /\
       length logged = length (List.filter malformed lines) /\
       environ s' = environ s /\ spawned s' = spawned s).
Proof.
  unfold reload_config, bind, ret, raise, modify, gets.
  destruct config_file_arg as [cf|]; simpl;
    (split; [intros ->; reflexivity|]);
    intros content -> _;
    rewrite reload_loop_spec; simpl;
    (do 2 eexists; split; [reflexivity|]; simpl;
     repeat split; auto using rules_of_length, diagnostics_of_length).
Qed.

Lemma reload_config_total_witness :
  let w := world_with_config "rifle.conf" config_comment_first in
  open_read w "rifle.conf" = Some config_comment_first /\
  isascii config_comment_first = true /\
  exists s' logged,
    reload_config w None state0 = Ok (tt, s') /\
    rules s' = Some (rules_of (Str.readlines config_comment_first)) /\
    length (rules_of (Str.readlines config_comment_first))
      = length (List.filter well_formed (Str.readlines config_comment_first)) /\
    stderr s' = (stderr state0 ++ logged)%list /\
    length logged
      = length (List.filter malformed (Str.readlines config_comment_first)) /\
    environ s' = environ state0 /\ spawned s' = spawned state0.
Proof.
  intros w. split; [reflexivity|]. split; [reflexivity|].
  apply (proj2 (reload_config_total w None state0) config_comment_first);
    reflexivity.
Defined.

(** X3: One line without delimiter among lines that hold one or are
    skipped: loading ends normally with one rule for each line holding a
    delimiter, in their order, and logs exactly one message.  The number
    in the message counts the lines that were not skipped, up to and
    including the offending one; comments and empty lines before it are
    not counted. *)
Theorem reload_one_malformed_line (cf : string) (pre post : list string)
    (bad : string) (s : State) :
  malformed bad = true ->
  Forall (fun l => malformed l = false) (pre ++ post)%list ->
  exists s',
    reload_loop cf (pre ++ bad :: post)%list 1 [] s = Ok (tt, s') /\
    rules s' = Some (rules_of (pre ++ post)%list) /\
    length (rules_of (pre ++ post)%list)
      = length (List.filter well_formed (pre ++ post)%list) /\
    stderr s' = (stderr s ++
      [syntax_error cf (1 + length (List.filter (fun l => negb (skipped l)) pre))
                    "Line without delimiter"])%list.
Proof. apply reload_tolerates_one_malformed. Qed.

Lemma reload_one_malformed_line_witness :
  malformed line_bogus = true /\
  Forall (fun l => malformed l = false) [line_feh; line_comment] /\
  exists s',
    reload_loop "rifle.conf" [line_feh; line_bogus; line_comment] 1 [] state0
      = Ok (tt, s') /\
    rules s' = Some [("feh", [["ext"; "jpg"]])] /\
    stderr s' = ["Syntax error in rifle.conf line 2 (Line without delimiter)"].
Proof.
  assert (Hbad : malformed line_bogus = true) by reflexivity.
  assert (Hrest : Forall (fun l => malformed l = false) [line_feh; line_comment])
    by (repeat constructor).
  split; [exact Hbad|]. split; [exact Hrest|].
  destruct (reload_one_malformed_line "rifle.conf"
              [line_feh] [line_comment] line_bogus state0 Hbad Hrest)
    as (s' & Hrun & Hrules & _ & Herr).
  exists s'. split; [exact Hrun|]. split; [exact Hrules|exact Herr].
Defined.

(** *** The shape of a loaded rule *)

Lemma mem_cons (c d : ascii) (s : string) :
  Str.mem c (String d s) = Ascii.eqb c d || Str.mem c s.
Proof. reflexivity. Qed.

Lemma lstrip_mem (c : ascii) (s : string) :
  Str.mem c s = false -> Str.mem c (Str.lstrip s) = false.
Proof.
  induction s as [|d s IH]; [reflexivity|]. rewrite mem_cons.
  intros [Hd Hs]%orb_false_elim. simpl.
  destruct (Str.is_space d); [now apply IH|]. now rewrite mem_cons, Hd, Hs.
Qed.

Lemma rstrip_mem (c : ascii) (s : string) :
  Str.mem c s = false -> Str.mem c (Str.rstrip s) = false.
Proof.
  induction s as [|d s IH]; [reflexivity|]. rewrite mem_cons.
  intros [Hd Hs]%orb_false_elim. specialize (IH Hs). simpl.
  destruct (Str.rstrip s) as [|e r].
  - destruct (Str.is_space d); [reflexivity|].
    now rewrite mem_cons, Hd.
  - now rewrite mem_cons, Hd, IH.
Qed.

Lemma strip_mem (c : ascii) (s : string) :
  Str.mem c s = false -> Str.mem c (Str.strip s) = false.
Proof. intros H. now apply rstrip_mem, lstrip_mem. Qed.

Lemma split_once_before (sep : ascii) (s a b : string) :
  Str.split_once sep s = Some (a, b) -> Str.mem sep a = false.
Proof.
  revert a. induction s as [|c s IH]; intros a; simpl; [discriminate|].
  destruct (Ascii.eqb c sep) eqn:E.
  - now intros [= <- _].
  - destruct (Str.split_once sep s) as [[a' b']|]; [|discriminate].
    intros [= <- <-]. rewrite mem_cons, Ascii.eqb_sym, E. now apply IH.
Qed.

Lemma split_parts (sep c : ascii) (s : string) :
  Str.split sep s <> [] /\
  Forall (fun p => Str.mem sep p = false /\
                   (Str.mem c s = false -> Str.mem c p = false))
         (Str.split sep s).
Proof.
  induction s as [|d s [IHn IH]].
  - split; [discriminate|]. repeat constructor.
  - cbn [Str.split]. destruct (Ascii.eqb d sep) eqn:E.
    + split; [discriminate|]. constructor; [split; [reflexivity|tauto]|].
      eapply Forall_impl; [exact IH|]. intros p [Hp Hc]. split; [exact Hp|].
      rewrite mem_cons. intros [_ Hs]%orb_false_elim. auto.
    + destruct (Str.split sep s) as [|p ps]; [now contradiction IHn|].
      split; [discriminate|].
      apply Forall_cons in IH as [[Hp Hc] IH]. constructor.
      * rewrite !mem_cons, (Ascii.eqb_sym sep d), E. split; [exact Hp|].
        intros [Hd Hs]%orb_false_elim. rewrite Hd. auto.
      * eapply Forall_impl; [exact IH|]. intros q [Hq Hcq]. split; [exact Hq|].
        rewrite mem_cons. intros [_ Hs]%orb_false_elim. auto.
Qed.

Lemma break_space_parts (c : ascii) (s : string) :
  Str.all (fun ch => negb (Str.is_space ch)) (Str.break_space s).1 = true /\
  (Str.mem c s = false ->
   Str.mem c (Str.break_space s).1 = false /\
   Str.mem c (Str.break_space s).2 = false).
Proof.
  induction s as [|d s [IHa IHm]]; [simpl; auto|].
  cbn [Str.break_space]. destruct (Str.is_space d) eqn:E; [simpl; auto|].
  destruct (Str.break_space s) as [w r]. cbn [fst snd Str.all] in *.
  rewrite E. split; [exact IHa|]. rewrite !mem_cons.
  intros [Hd Hs]%orb_false_elim. rewrite Hd. auto.
Qed.

Lemma split_ws1_parts (c : ascii) (s : string) :
  length (Str.split_ws1 s) <= 2 /\
  Forall (fun part => part <> "" /\
                      (Str.mem c s = false -> Str.mem c part = false))
         (Str.split_ws1 s) /\
  Str.all (fun ch => negb (Str.is_space ch)) (hd "" (Str.split_ws1 s)) = true.
Proof.
  unfold Str.split_ws1.
  pose proof (lstrip_head s) as Hh. pose proof (lstrip_mem c s) as Hm.
  destruct (Str.lstrip s) as [|d s1]; [simpl; auto|].
  pose proof (break_space_parts c (String d s1)) as [Ha Hb].
  assert (Hw : (Str.break_space (String d s1)).1 <> "").
  { simpl. rewrite Hh. now destruct (Str.break_space s1). }
  destruct (Str.break_space (String d s1)) as [w r]. simpl in Ha, Hb, Hw.
  pose proof (lstrip_mem c r) as Hr.
  destruct (Str.lstrip r) as [|e r1]; simpl.
  - split; [lia|]. split; [|exact Ha].
    repeat constructor; [exact Hw|]. intros H. now apply Hb, Hm.
  - split; [lia|]. split; [|exact Ha].
    repeat constructor; [exact Hw| |discriminate|].
    + intros H. now apply Hb, Hm.
    + intros H. now apply Hr, Hb, Hm.
Qed.

(** X4: What every loaded rule looks like: the command has no white space
    at either end; there is at least one condition; a condition has at
    most two parts, none of them empty and none of them holding a comma
    or an equals sign; and the first part, the function name, is free of
    white space.  A pattern with a comma or an equals sign can therefore
    not be written in a rule. *)
Theorem loaded_rule_shape (line cmd : string) (tests : list condition) :
  parse_line line = inr (cmd, tests) ->
  Str.strip cmd = cmd /\ tests <> [] /\
  Forall (fun c =>
            length c <= 2 /\
            Forall (fun part => part <> "" /\
                                Str.mem delimiter2 part = false /\
                                Str.mem delimiter1 part = false) c /\
            Str.all (fun ch => negb (Str.is_space ch)) (hd "" c) = true)
         tests.
Proof.
  unfold parse_line.
  destruct (Str.split_once delimiter1 line) as [[before after]|] eqn:E;
    [|discriminate].
  intros [= <- <-]. apply split_once_before in E.
  split; [apply strip_idempotent|].
  destruct (split_parts delimiter2 delimiter1 before) as [Hn Hparts].
  split; [now destruct (Str.split delimiter2 before)|].
  apply Forall_forall. intros c [f [-> Hf]]%list_elem_of_fmap.
  rewrite Forall_forall in Hparts. destruct (Hparts f Hf) as [Hcomma Heq].
  specialize (Heq E).
  destruct (split_ws1_parts delimiter2 (Str.strip f)) as (Hlen & Hp2 & Hfun).
  destruct (split_ws1_parts delimiter1 (Str.strip f)) as (_ & Hp1 & _).
  split; [exact Hlen|]. split; [|exact Hfun].
  apply Forall_forall. intros part Hpart.
  rewrite Forall_forall in Hp1, Hp2.
  destruct (Hp1 part Hpart) as [Hne H1]. destruct (Hp2 part Hpart) as [_ H2].
  split; [exact Hne|]. split; [apply H2|apply H1]; now apply strip_mem.
Qed.

Lemma loaded_rule_shape_witness :
  parse_line "ext x?html?, has  surf , X = surf -- file://$1  "
    = inr ("surf -- file://$1",
           [["ext"; "x?html?"]; ["has"; "surf"]; ["X"]]) /\
  Str.strip "surf -- file://$1" = "surf -- file://$1".
Proof.
  split; [reflexivity|].
  apply (loaded_rule_shape "ext x?html?, has  surf , X = surf -- file://$1  "
           "surf -- file://$1" [["ext"; "x?html?"]; ["has"; "surf"]; ["X"]]).
  reflexivity.
Defined.

(** A line that starts with the delimiter gives a rule with one empty
    condition, and such a rule applies to every list of files, the empty
    one included, whatever the outside world is: it is yielded with the
    next index, without label and without flags. *)
Lemma rule_without_conditions (w : World) (command : string)
    (files : list string) (count : Z) (s : State) :
  parse_line (String delimiter1 command) = inr (Str.strip command, [[]]) /\
  try_rule w files count (Str.strip command, [[]]) s =
  Ok (Some ((count + 1)%Z, Str.strip command, None, ""),
      set_app_label None (set_app_flags "" (set_skip None s))).
Proof. split; reflexivity. Qed.

(** *** The flag algebra, letter by letter *)

Lemma upper_idempotent (g : ascii) : Str.upper (Str.upper g) = Str.upper g.
Proof. destruct g as [[] [] [] [] [] [] [] []]; reflexivity. Qed.

Lemma lower_upper (f : ascii) :
  Ascii.eqb f (Str.upper f) = false -> Str.lower (Str.upper f) = f.
Proof.
  destruct f as [[] [] [] [] [] [] [] []]; intros H;
    first [reflexivity | discriminate H].
Qed.

Lemma upper_lower (g : ascii) :
  Ascii.eqb g (Str.upper g) = true ->
  Ascii.eqb (Str.lower g) (Str.upper (Str.lower g)) = false ->
  Str.upper (Str.lower g) = g.
Proof.
  destruct g as [[] [] [] [] [] [] [] []]; intros H1 H2;
    first [reflexivity | discriminate H1 | discriminate H2].
Qed.

Lemma is_lower_upper (f : ascii) :
  Str.is_lower f = negb (Ascii.eqb f (Str.upper f)).
Proof. destruct f as [[] [] [] [] [] [] [] []]; reflexivity. Qed.

Lemma mem_exclude_of_lower (f : ascii) (S : string) :
  Ascii.eqb f (Str.upper f) = false ->
  Str.mem f (exclude_of S) = Str.mem (Str.upper f) S.
Proof.
  intros Hf. induction S as [|g S IH]; [reflexivity|].
  cbn [exclude_of]. rewrite mem_cons.
  destruct (Ascii.eqb g (Str.upper g)) eqn:Hg.
  - rewrite !mem_cons, IH, orb_assoc. f_equal.
    apply Ascii.eqb_eq in Hg as Hg'. rewrite <- Hg'.
    destruct (Ascii.eqb_spec f g) as [Hfg|Hfg].
    { subst f. rewrite Hg in Hf. discriminate. }
    simpl.
    destruct (Ascii.eqb_spec f (Str.lower g)) as [Hfl|Hfl].
    + subst f. rewrite (upper_lower g Hg Hf). symmetry. apply Ascii.eqb_refl.
    + destruct (Ascii.eqb_spec (Str.upper f) g) as [Hug|]; [|reflexivity].
      contradiction Hfl. subst g. symmetry. now apply lower_upper.
  - rewrite IH.
    destruct (Ascii.eqb_spec (Str.upper f) g) as [<-|]; [|reflexivity].
    rewrite upper_idempotent, Ascii.eqb_refl in Hg. discriminate.
Qed.

Lemma filter_ext_mem (p q : ascii -> bool) (s : string) :
  (forall c, Str.mem c s = true -> p c = q c) ->
  Str.filter p s = Str.filter q s.
Proof.
  induction s as [|c s IH]; intros H; [reflexivity|].
  cbn [Str.filter]. rewrite (H c) by (rewrite mem_cons, Ascii.eqb_refl; reflexivity).
  rewrite IH; [reflexivity|].
  intros d Hd. apply H. rewrite mem_cons, Hd. apply orb_true_r.
Qed.

(** X1: Which characters [squash_flags] keeps of an ASCII string: exactly
    the occurrences of the characters that differ from their upper-case
    form (the letters [a] to [z]) and whose upper-case form does not
    occur in the string.  Upper-case letters, digits and punctuation are
    always dropped. *)
Theorem squash_flags_survivors (S : string) :
  isascii S = true ->
  squash_flags S =
  Str.filter (fun f => Str.is_lower f && negb (Str.mem (Str.upper f) S)) S.
Proof.
  intros _. rewrite (filter_ext_mem
    (fun f => Str.is_lower f && negb (Str.mem (Str.upper f) S))
    (fun f => negb (Ascii.eqb f (Str.upper f))
              && negb (Str.mem (Str.upper f) S)) S)
    by (intros c _; f_equal; apply is_lower_upper).
  unfold squash_flags. apply filter_ext_mem. intros c Hc.
  destruct (Ascii.eqb c (Str.upper c)) eqn:E; simpl.
  - apply Ascii.eqb_eq in E. now rewrite (mem_exclude_of c S Hc E).
  - now rewrite mem_exclude_of_lower.
Qed.

Lemma squash_flags_survivors_witness :
  isascii "pPwf1-" = true /\ squash_flags "pPwf1-" = "wf".
Proof.
  split; [reflexivity|].
  rewrite (squash_flags_survivors "pPwf1-"); reflexivity.
Defined.

(** *** The preamble of a command, read by the shell *)

Lemma append_cons (c : ascii) (a b : string) :
  String c a ++ b = String c (a ++ b).
Proof. reflexivity. Qed.

Lemma append_assoc_string (a b c : string) : (a ++ b) ++ c = a ++ (b ++ c).
Proof.
  induction a as [|d a IH]; [reflexivity|].
  rewrite !append_cons. now rewrite IH.
Qed.

(** An escaped file name between single quotes is read as the name. *)
Lemma line_quoted (f w : string) (acc : list string) (rest : string) :
  Sh.line (Sh.Quote w) acc
    (Str.replace "'" (squote ++ backslash ++ squote ++ squote) f ++ rest)
  = Sh.line (Sh.Quote (w ++ f)) acc rest.
Proof.
  revert w. induction f as [|d f IH]; intros w.
  - now rewrite append_empty_r.
  - cbn [Str.replace]. destruct (Ascii.eqb_spec d "'") as [->|Hd].
    + change ((squote ++ backslash ++ squote ++ squote)
                ++ Str.replace "'" (squote ++ backslash ++ squote ++ squote) f)
        with (String "'" (String "\" (String "'" (String "'"
                (Str.replace "'" (squote ++ backslash ++ squote ++ squote) f))))).
      rewrite !append_cons. cbn [Sh.line Sh.current]. simpl Ascii.eqb.
      cbn iota. rewrite IH. unfold Sh.push.
      now rewrite append_assoc_string.
    + rewrite append_cons. cbn [Sh.line].
      apply Ascii.eqb_neq in Hd. rewrite Hd. rewrite IH. unfold Sh.push.
      now rewrite append_assoc_string.
Qed.

Lemma line_joined (fs : list string) (acc : list string) (rest : string) :
  fs <> [] ->
  Sh.line (Sh.Quote "") acc
    (Str.join (squote ++ " " ++ squote)
       (map (Str.replace "'" (squote ++ backslash ++ squote ++ squote)) fs)
     ++ squote ++ newline ++ rest)
  = Some ((acc ++ fs)%list, rest).
Proof.
  revert acc. induction fs as [|f fs IH]; intros acc Hne; [now contradiction Hne|].
  destruct fs as [|g fs].
  - cbn [map Str.join]. rewrite line_quoted. reflexivity.
  - change (Str.join (squote ++ " " ++ squote)
              (map (Str.replace "'" (squote ++ backslash ++ squote ++ squote))
                   (f :: g :: fs)))
      with (Str.replace "'" (squote ++ backslash ++ squote ++ squote) f
              ++ (squote ++ " " ++ squote)
              ++ Str.join (squote ++ " " ++ squote)
                   (map (Str.replace "'" (squote ++ backslash ++ squote ++ squote))
                        (g :: fs))).
    rewrite !append_assoc_string, line_quoted.
    change (Sh.line (Sh.Quote ("" ++ f)) acc
              (squote ++ " " ++ squote ++ ?x))
      with (Sh.line (Sh.Quote "") (acc ++ [f])%list x).
    rewrite IH by discriminate. now rewrite <- app_assoc.
Qed.

(** X7: The first line of every command [_build_command] returns is read by
    the shell as [set], [--] and then the file names themselves, one
    word for each name without a NUL, whatever characters the names
    hold: quotes, blanks, line feeds or dollar signs do not leak into
    the command.  Names with a NUL are left out, and when no name is
    left the line binds one empty word.  The wrapped action is what
    follows the line. *)
Theorem build_command_words (w : World) (files : list string) (action : string)
    (flags : option string) (s s' : State) (command : string) :
  _build_command w files action flags s = Ok (command, s') ->
  exists wrapped,
    Sh.first_line command = Some ("set" :: "--" :: bound_files files, wrapped).
Proof.
  unfold _build_command. unfold bind, modify, gets, ret.
  destruct flags as [fl|]; cbv beta iota;
    (match goal with
     | |- context [_apply_flags w action ?fl ?st] =>
         destruct (_apply_flags w action fl st) as [[a s2]|e]; [|discriminate]
     end);
    intros [= <- _]; exists a; clear.
  all: unfold Sh.first_line, bound_files.
  all: set (kept := List.filter (fun f => negb (Str.mem "000" f)) files).
  all: rewrite !append_assoc_string.
  all: change (Sh.line Sh.Blank [] ("set -- '" ++ ?x))
         with (Sh.line (Sh.Quote "") ["set"; "--"] x).
  all: destruct kept as [|f fs]; [reflexivity|].
  all: change ("'" ++ newline ++ a) with (squote ++ newline ++ a).
  all: now rewrite line_joined.
Qed.

Lemma build_command_words_witness :
  exists command s',
    _build_command world0 ["it's"; "a b"; String "000" "x"] "vi" None state0
      = Ok (command, s') /\
    exists wrapped,
      Sh.first_line command = Some (["set"; "--"; "it's"; "a b"], wrapped).
Proof.
  eexists _, _. split; [vm_compute; reflexivity|].
  apply (build_command_words world0 ["it's"; "a b"; String "000" "x"] "vi"
           None state0 state0).
  vm_compute. reflexivity.
Defined.

(** *** A MIME type given by the caller *)

Lemma eval_condition2_cached (w : World) (spawn : string -> result string)
    (c : ascii) (m : string) (rule : condition) (files : list string)
    (label : option string) (s : State) :
  _mimetype s = Some (String c m) ->
  _eval_condition2 (with_spawn_file spawn w) rule files label s
    = _eval_condition2 w rule files label s /\
  match _eval_condition2 w rule files label s with
  | Ok (_, s') => _mimetype s' = Some (String c m)
  | Raise _ => True
  end.
Proof.
  intros Hm. destruct rule as [|function rest]; [split; [reflexivity|exact I]|].
  destruct files as [|file0 files]; [split; [reflexivity|exact Hm]|].
  unfold _eval_condition2.
  set (argument := match rest with a :: _ => a | [] => "" end).
  destruct (String.eqb function "ext").
  { step_monad. split; [reflexivity|]. now destruct (re_search w _ _). }
  destruct (String.eqb function "name").
  { step_monad. split; [reflexivity|]. now destruct (re_search w _ _). }
  destruct (String.eqb function "path").
  { step_monad. split; [reflexivity|]. now destruct (re_search w _ _). }
  destruct (String.eqb function "mime").
  { unfold _get_mimetype. step_monad. rewrite Hm.
    split; [reflexivity|]. now destruct (re_search w _ _). }
  destruct (String.eqb function "has"); [split; [reflexivity|exact Hm]|].
  destruct (String.eqb function "terminal"); [split; [reflexivity|exact Hm]|].
  destruct (String.eqb function "number").
  { step_monad. split; [reflexivity|]. now destruct (Str.isdigit argument). }
  destruct (String.eqb function "label").
  { step_monad. split; [reflexivity|]. now destruct (label_given label). }
  destruct (String.eqb function "flag"); [split; [reflexivity|exact Hm]|].
  destruct (String.eqb function "X"); [split; [reflexivity|exact Hm]|].
  destruct (String.eqb function "else"); split; try reflexivity; exact Hm.
Qed.

Lemma eval_tests_cached (w : World) (spawn : string -> result string)
    (c : ascii) (m : string) (tests : list condition) (files : list string)
    (s : State) :
  _mimetype s = Some (String c m) ->
  eval_tests (with_spawn_file spawn w) tests files s = eval_tests w tests files s /\
  match eval_tests w tests files s with
  | Ok (_, s') => _mimetype s' = Some (String c m)
  | Raise _ => True
  end.
Proof.
  revert s. induction tests as [|t tests IH]; intros s Hm; simpl.
  - split; [reflexivity|exact Hm].
  - assert (Hc : _eval_condition (with_spawn_file spawn w) t files None s
                   = _eval_condition w t files None s /\
                 match _eval_condition w t files None s with
                 | Ok (_, s') => _mimetype s' = Some (String c m)
                 | Raise _ => True
                 end).
    { destruct t as [|c0 rest]; [split; [reflexivity|exact Hm]|].
      unfold _eval_condition. destruct (Str.startswith "!" c0).
      - destruct (eval_condition2_cached w spawn c m (drop_first c0 :: rest)
                    files None s Hm) as [He Hs].
        unfold bind, ret. simpl. rewrite He.
        split; [reflexivity|].
        now destruct (_eval_condition2 w (drop_first c0 :: rest) files None s)
          as [[v s']|e].
      - apply eval_condition2_cached, Hm. }
    destruct Hc as [He Hs]. unfold bind. rewrite He.
    destruct (_eval_condition w t files None s) as [[v s1]|e];
      [|split; [reflexivity|exact I]].
    destruct (truthy v); [apply IH, Hs|split; [reflexivity|exact Hs]].
Qed.

Lemma try_rule_cached (w : World) (spawn : string -> result string)
    (c : ascii) (m : string) (files : list string) (count : Z) (r : rule)
    (s : State) :
  _mimetype s = Some (String c m) ->
  try_rule (with_spawn_file spawn w) files count r s = try_rule w files count r s /\
  match try_rule w files count r s with
  | Ok (_, s') => _mimetype s' = Some (String c m)
  | Raise _ => True
  end.
Proof.
  intros Hm. destruct r as [cmd tests].
  unfold try_rule, bind, modify, gets, ret.
  destruct (eval_tests_cached w spawn c m tests files
              (set_app_label None (set_app_flags "" (set_skip None s))) Hm)
    as [He Hs].
  rewrite He.
  destruct (eval_tests w tests files _) as [[[|] s1]|e]; auto.
Qed.

Lemma list_commands_loop_cached (w : World) (spawn : string -> result string)
    (c : ascii) (m : string) (files : list string) (count : Z)
    (rs : list rule) (s : State) :
  _mimetype s = Some (String c m) ->
  list_commands_loop (with_spawn_file spawn w) files count rs s
    = list_commands_loop w files count rs s.
Proof.
  revert count s. induction rs as [|r rest IH]; intros count s Hm; simpl;
    [reflexivity|].
  destruct (try_rule_cached w spawn c m files count r s Hm) as [He Hs].
  rewrite He.
  destruct (try_rule w files count r s) as [[[y|] s1]|e]; [| |reflexivity].
  - now rewrite IH.
  - now apply IH.
Qed.

(** X6: When the caller passes a MIME type that is not the empty string,
    the [file] program is never run: [list_commands] and [execute]
    behave the same whatever that program would answer, or raise. *)
Theorem mimetype_given_no_spawn (w : World) (spawn : string -> result string)
    (c : ascii) (m : string) (files : list string) (number : Z)
    (label flags : option string) (s : State) :
  list_commands (with_spawn_file spawn w) files (Some (String c m)) s
    = list_commands w files (Some (String c m)) s /\
  execute (with_spawn_file spawn w) files number label flags (Some (String c m)) s
    = execute w files number label flags (Some (String c m)) s.
Proof.
  split.
  - unfold list_commands, list_commands_start, bind, modify, gets, ret, raise.
    simpl. destruct (rules s) as [rs|]; [|reflexivity]. simpl.
    now apply (list_commands_loop_cached w spawn c m).
  - rewrite !execute_unfold.
    unfold list_commands_start. unfold bind at 1 2 3 5 6 7. unfold modify, gets.
    simpl. destruct (rules s) as [rs|]; [|reflexivity]. simpl.
    unfold bind. rewrite !execute_loop_select.
    rewrite (list_commands_loop_cached w spawn c m) by reflexivity.
    reflexivity.
Qed.

(** *** The flags argument of [execute] *)

(** X15: Once the generator has yielded a tuple, the [flags] argument of
    [execute] plays no part any more: the target [flags] of the loop has
    taken its place, for the selected rule and for the fallback alike.
    The argument only matters when nothing is yielded. *)
Theorem execute_flags_argument_unused (w : World) (files : list string)
    (number : Z) (label : option string) (flags1 flags2 : option string)
    (mimetype : option string) (s : State) :
  (list_commands w files mimetype s).1 <> [] ->
  execute w files number label flags1 mimetype s =
  execute w files number label flags2 mimetype s.
Proof.
  rewrite !execute_unfold. unfold list_commands. unfold bind at 1 3.
  destruct (list_commands_start mimetype s) as [[[count rs] s0]|e];
    [|reflexivity].
  simpl. intros Hy. unfold bind.
  now rewrite (execute_loop_caller_flags_unused w files number label
                 flags1 flags2 false count rs s0 Hy).
Qed.

Lemma execute_flags_argument_unused_witness :
  let s := set_rules (Some [("cmd", [["flag"; "pw"]])]) state0 in
  (list_commands world0 ["a"] None s).1 <> [] /\
  execute world0 ["a"] 0 None (Some "Pf") None s =
  execute world0 ["a"] 0 None None None s.
Proof.
  intros s.
  assert (H : (list_commands world0 ["a"] None s).1 <> [])
    by (vm_compute; discriminate).
  split; [exact H|].
  apply (execute_flags_argument_unused world0 ["a"] 0 None (Some "Pf") None
           None s H).
Defined.

(** *** A label that names a program *)

Lemma select_none (label : option string) (number : Z) (found : bool)
    (flags : option string) (ms : list (match_ * State)) :
  Forall (fun y => selected label number (match_count y.1) (match_label y.1)
                   = false) ms ->
  select label number found flags ms =
  (None, found || negb (bool_decide (ms = [])), flags_after_loop flags ms).
Proof.
  intros H. revert found flags.
  induction H as [|[m sm] ms Hm _ IH]; intros found flags; simpl.
  - now rewrite orb_false_r.
  - simpl in Hm. rewrite Hm, IH, orb_true_r. simpl. unfold flags_after_loop.
    destruct ms as [|y ms]; [reflexivity|].
    rewrite last_cons_cons.
    destruct (last (y :: ms)) eqn:E; [reflexivity|].
    apply last_None in E. discriminate.
Qed.

(** X19: The fallback of [execute]: when the generator ends normally, no
    tuple yielded carries the label asked for, and the label is the name
    of an executable, the command [label -- "$@"] is built and run.  The
    flags handed to the builder are those of the last tuple yielded, and
    the argument of [execute] only when nothing was yielded. *)
Theorem execute_label_fallback (w : World) (files : list string) (number : Z)
    (c : ascii) (l : string) (flags : option string) (mimetype : option string)
    (s s_end : State) (ms : list (match_ * State)) :
  list_commands w files mimetype s = (ms, Ok s_end) ->
  Forall (fun y => match_label y.1 <> Some (String c l)) ms ->
  String c l ∈ get_executables w ->
  execute w files number (Some (String c l)) flags mimetype s =
  (let* command :=
     _build_command w files (String c l ++ " -- " ++ dquote ++ "$@" ++ dquote)
                    (flags_after_loop flags ms) in
   execute_finish (Some (String c l)) number
     (Some command, negb (bool_decide (ms = [])))) s_end.
Proof.
  rewrite execute_unfold. unfold list_commands. unfold bind at 1.
  destruct (list_commands_start mimetype s) as [[[count rs] s0]|e];
    [|discriminate].
  simpl. intros Hrun Hlbl Hexe. unfold bind at 1.
  rewrite execute_loop_select, Hrun. simpl.
  rewrite select_none.
  - simpl. unfold execute_else. rewrite bool_decide_eq_true_2 by exact Hexe.
    unfold bind.
    destruct (_build_command w files _ (flags_after_loop flags ms) s_end)
      as [[command s1]|e]; reflexivity.
  - eapply Forall_impl; [exact Hlbl|]. intros [m sm] Hm. simpl in *.
    unfold selected. simpl. now apply bool_decide_eq_false_2.
Qed.

Lemma execute_label_fallback_witness :
  let w := mkWorld re_search_fragment {["vim"]} false (fun p => p)
                   (fun _ => Ok "text/plain") (fun _ => None) in
  let s := set_rules (Some [("feh", [["ext"; "jpg"]; ["flag"; "f"]])]) state0 in
  exists s',
    execute w ["a.jpg"] 0 (Some "vim") (Some "t") None s = Ok (tt, s') /\
    spawned s' =
      ["set -- 'a.jpg'" ++ newline ++ "nohup vim -- " ++ dquote ++ "$@" ++ dquote
         ++ " > /dev/null 2> /dev/null &"].
Proof.
  intros w s. eexists. split.
  - rewrite (execute_label_fallback w ["a.jpg"] 0 "v" "im" (Some "t") None s
               (set_app_flags "f" (set_app_label None s))
               [((0%Z, "feh", None, "f"),
                 set_app_flags "f" (set_app_label None s))]);
      [vm_compute; reflexivity
      |vm_compute; reflexivity
      |repeat constructor; discriminate
      |set_solver].
  - reflexivity.
Defined.
